(** * Policy-evaluation bridge of the beskar registry router

    A shallow embedding of the two custom policy functions of
    [router] ([oci.blob_digest] and [request.body]), of the pooled
    buffers they stage request bodies in and of the replayable body
    [bufPoolCloser], together with the properties the specification
    states about them.

    The Go code mutates a per-request [funcContext], a package-level
    [sync.Pool] and the byte buffers the pool hands out; the embedding
    threads all of that through one explicit [World] and a small
    state-and-error monad. *)

From Stdlib Require Import ZArith String Ascii List Bool Lia.
From Stdlib.Strings Require Import Byte.
From stdpp Require Import base list strings gmap.

Import ListNotations.
#[local] Set Warnings "-register-all".
Local Open Scope string_scope.
Local Open Scope list_scope.

(** ** Go errors *)

(** The dynamic error values the bridge creates or inspects.
    [errorString] is what [errors.New] and a [fmt.Errorf] without [%w]
    build; [wrapError] is a [fmt.Errorf] with [%w] (it keeps the wrapped
    error for [Unwrap]); [ErrTagUnknown] is [distribution.ErrTagUnknown];
    [EOF] is [io.EOF]. Any other collaborator error is an [errorString]. *)
Inductive error : Type :=
| errorString (msg : string)
| wrapError (msg : string) (err : error)
| ErrTagUnknown (Tag : string)
| EOF.

(** The [Error()] method. *)
Definition Error (e : error) : string :=
  match e with
  | errorString msg => msg
  | wrapError msg _ => msg
  | ErrTagUnknown tag => "unknown tag=" +:+ tag
  | EOF => "EOF"
  end.

(** [fmt.Errorf(format)] with no error operand. *)
Definition Errorf (msg : string) : error := errorString msg.

(** [fmt.Errorf(prefix + "%w", err)]: every wrapping format of the router
    ends in [%w]. *)
Definition Errorf_w (prefix : string) (err : error) : error :=
  wrapError (prefix +:+ Error err) err.

(** [errors.As(err, &tagUnknown)] for a target of type
    [distribution.ErrTagUnknown]: walks the [Unwrap] chain. *)
Fixpoint errors_As_ErrTagUnknown (err : error) : bool :=
  match err with
  | ErrTagUnknown _ => true
  | wrapError _ inner => errors_As_ErrTagUnknown inner
  | errorString _ => false
  | EOF => false
  end.

(** A Go [(value, error)] pair with the usual discipline: one of the two. *)
Inductive result (A : Type) : Type :=
| Ok (a : A)
| Err (e : error).
Arguments Ok {A} a.
Arguments Err {A} e.

(** ** Strings *)

(** [strings.LastIndexByte]: the loop [for i := len(s) - 1; i >= 0; i--],
    [k] being [i + 1]. *)
Fixpoint lastIndexByteFrom (s : string) (c : ascii) (k : nat) : Z :=
  match k with
  | O => (-1)%Z
  | S i =>
      match String.get i s with
      | Some a => if Ascii.eqb a c then Z.of_nat i else lastIndexByteFrom s c i
      | None => lastIndexByteFrom s c i
      end
  end.

Definition LastIndexByte (s : string) (c : ascii) : Z :=
  lastIndexByteFrom s c (String.length s).

(** The slice expressions [s[:hi]] and [s[lo:]], for indices in range. *)
Definition slice_to (s : string) (hi : Z) : string :=
  String.substring 0 (Z.to_nat hi) s.

Definition slice_from (s : string) (lo : Z) : string :=
  String.substring (Z.to_nat lo) (String.length s - Z.to_nat lo) s.

(** Number of occurrences of a byte in a string. *)
Fixpoint countByte (c : ascii) (s : string) : nat :=
  match s with
  | EmptyString => 0
  | String a s' => (if Ascii.eqb a c then 1 else 0) + countByte c s'
  end.

Definition colon : ascii := ":"%char.

(** ** Collaborator data *)

(** [reference.Named]: a repository name that passed [reference.WithName]. *)
Record Named : Type := mkNamed { Named_String : string }.

(** [v1.Hash], [v1.Descriptor] and [v1.Manifest] of go-containerregistry,
    with the fields the JSON decoding fills and the resolver reads. *)
Record Hash : Type := mkHash { Algorithm : string; Hex : string }.

Record Descriptor : Type := mkDescriptor {
  MediaType : string;
  Size : Z;
  Digest : Hash
}.

Record Manifest : Type := mkManifest {
  SchemaVersion : Z;
  Config : Descriptor;
  Layers : list Descriptor
}.

(** The registry collaborator. A Go interface value is a record of its
    methods; every method the resolver calls is called at most once per
    invocation, so each is a function of its arguments.
    [TagService.Get] yields a [distribution.Descriptor], of which only the
    digest is used. *)
Record distribution_Manifest : Type := {
  Payload : result (string * list byte)
}.

Record ManifestService : Type := {
  ManifestService_Get : string -> result distribution_Manifest
}.

Record TagService : Type := {
  TagService_Get : string -> result string
}.

Record Repository : Type := {
  Tags : TagService;
  Manifests : result ManifestService
}.

Record Namespace : Type := {
  Namespace_Repository : Named -> result Repository
}.

(** The calls made on the registry collaborator, in order (ghost state). *)
Inductive registryCall : Type :=
| CallRepository (name : Named)
| CallTagsGet (tag : string)
| CallManifests
| CallManifestGet (dgst : string)
| CallPayload.

(** ** Policy values *)

(** [ast.Value]: the dynamic types a term of the evaluator can hold. *)
Inductive Value : Type :=
| Null
| Boolean (b : bool)
| Number (n : string)
| ast_String (s : string)
| Array (elems : list Value)
| Object (fields : list (Value * Value)).

Record Term : Type := NewTerm { Term_Value : Value }.

Definition StringTerm (s : string) : Term := NewTerm (ast_String s).

(** [ast.InterfaceToValue(nil)] is [Null] with a nil error. *)
Definition InterfaceToValue_nil : Value * option error := (Null, None).

(** ** Buffers, streams and bodies *)

Definition bufid : Type := nat.

(** [make([]byte, 8192)] *)
Definition bufferSize : nat := Z.to_nat 8192.

Definition newBufferBytes : list byte := replicate bufferSize x00.

Arguments bufferSize : simpl never.
Arguments newBufferBytes : simpl never.

(** One outcome of [Read] on the transport's body stream: the bytes it
    delivers and the error it reports with them. *)
Record chunk : Type := mkChunk { chunk_data : list byte; chunk_err : option error }.

(** The transport's body stream, as the outcomes its future [Read] calls
    will have; past the end every [Read] reports [EOF]. A stream therefore
    never answers [0, nil] for ever. *)
Definition stream : Type := list chunk.

(** [bytes.Reader] over the first [rd_len] bytes of a pooled buffer,
    at read offset [rd_i]. The slice aliases the buffer. *)
Record bytesReader : Type := mkReader { rd_buf : bufid; rd_len : nat; rd_i : nat }.

Record bufPoolCloser : Type := mkBufPoolCloser {
  Reader : bytesReader;
  buf : bufid
}.

(** The dynamic types of [http.Request.Body]. *)
Inductive ReadCloser : Type :=
| http_NoBody
| transportBody (s : stream)
| replayBody (bpc : bufPoolCloser).

Record Request : Type := mkRequest { Body : option ReadCloser }.

Record funcContext : Type := mkFuncContext {
  req : Request;
  registry : Namespace;
  builtinErr : option error
}.

(** [funcContext.req.Body != nil && funcContext.req.Body != http.NoBody] *)
Definition hasBody (body : option ReadCloser) : bool :=
  match body with
  | None => false
  | Some http_NoBody => false
  | Some _ => true
  end.

(** Pool operations, in order (ghost state). *)
Inductive poolEvent : Type :=
| PoolGet (b : bufid)
| PoolPut (b : bufid).

(** Everything a custom function can read or change.
    - [ctxValue] is what [bctx.Context.Value(&funcContextKey)] asserts to
      [*funcContext] ([None] when the assertion fails);
    - [Cancelled] is the state of [bctx.Cancel];
    - [bufferPool] holds the buffers currently in the [sync.Pool], most
      recently put first; [heap] the contents of every buffer allocated so
      far and [nextBuf] the next fresh buffer. *)
Record World : Type := mkWorld {
  ctxValue : option funcContext;
  Cancelled : bool;
  bufferPool : list bufid;
  heap : gmap bufid (list byte);
  nextBuf : bufid;
  poolTrace : list poolEvent;
  registryTrace : list registryCall
}.

Definition set_ctxValue (v : option funcContext) (w : World) : World :=
  mkWorld v (Cancelled w) (bufferPool w) (heap w) (nextBuf w)
          (poolTrace w) (registryTrace w).

Definition set_Cancelled (c : bool) (w : World) : World :=
  mkWorld (ctxValue w) c (bufferPool w) (heap w) (nextBuf w)
          (poolTrace w) (registryTrace w).

Definition set_bufferPool (p : list bufid) (w : World) : World :=
  mkWorld (ctxValue w) (Cancelled w) p (heap w) (nextBuf w)
          (poolTrace w) (registryTrace w).

Definition set_heap (h : gmap bufid (list byte)) (w : World) : World :=
  mkWorld (ctxValue w) (Cancelled w) (bufferPool w) h (nextBuf w)
          (poolTrace w) (registryTrace w).

Definition set_nextBuf (n : bufid) (w : World) : World :=
  mkWorld (ctxValue w) (Cancelled w) (bufferPool w) (heap w) n
          (poolTrace w) (registryTrace w).

Definition set_poolTrace (t : list poolEvent) (w : World) : World :=
  mkWorld (ctxValue w) (Cancelled w) (bufferPool w) (heap w) (nextBuf w)
          t (registryTrace w).

Definition set_registryTrace (t : list registryCall) (w : World) : World :=
  mkWorld (ctxValue w) (Cancelled w) (bufferPool w) (heap w) (nextBuf w)
          (poolTrace w) t.

Definition set_req_Body (b : option ReadCloser) (fc : funcContext) : funcContext :=
  mkFuncContext (mkRequest b) (registry fc) (builtinErr fc).

Definition set_builtinErr (e : option error) (fc : funcContext) : funcContext :=
  mkFuncContext (req fc) (registry fc) e.

(** The shared per-request error slot, as the caller reads it after the
    evaluation: empty when there is no context to hold it. *)
Definition errorSlot (w : World) : option error :=
  match ctxValue w with
  | Some fc => builtinErr fc
  | None => None
  end.

(** The request body, as the next consumer of the request finds it. *)
Definition requestBody (w : World) : option ReadCloser :=
  match ctxValue w with
  | Some fc => Body (req fc)
  | None => None
  end.

(** ** The state-and-error monad *)

Definition M (A : Type) : Type := World -> result A * World.

Definition ret {A} (a : A) : M A := fun w => (Ok a, w).

Definition fail {A} (e : error) : M A := fun w => (Err e, w).

Definition bind {A B} (m : M A) (k : A -> M B) : M B :=
  fun w =>
    match m w with
    | (Ok a, w') => k a w'
    | (Err e, w') => (Err e, w')
    end.

Declare Scope go_scope.
Delimit Scope go_scope with go.
Notation "x <- m ;; k" := (bind m (fun x => k))
  (at level 100, m at next level, right associativity) : go_scope.
Notation "m ;;; k" := (bind m (fun _ => k))
  (at level 100, right associativity) : go_scope.
Local Open Scope go_scope.

Definition gets {A} (f : World -> A) : M A := fun w => (Ok (f w), w).

Definition modify (f : World -> World) : M unit := fun w => (Ok tt, f w).

(** A Go [(value, err)] result whose error the caller rewrites before it
    returns it. *)
Definition orFail {A} (r : result A) (rewrite_err : error -> error) : M A :=
  match r with
  | Ok a => ret a
  | Err err => fail (rewrite_err err)
  end.

(** [bctx.Cancel.Cancel()] *)
Definition bctx_Cancel : M unit := modify (set_Cancelled true).

(** Records a call on the registry collaborator. *)
Definition calling (c : registryCall) : M unit :=
  modify (fun w => set_registryTrace (registryTrace w ++ [c]) w).

(** ** The buffer pool *)

(** [bufferPool.Get()]: a buffer of the pool when it has one, else a
    fresh one from [newBuffer]. A [sync.Pool] may hand out any of its
    buffers and may drop some; the pool here hands out the one put last
    and drops none, which is one of the behaviours it may have. The
    properties below count [Get]s and [Put]s and do not depend on the
    choice. *)
Definition bufferPool_Get : M bufid :=
  fun w =>
    match bufferPool w with
    | b :: rest =>
        (Ok b, set_poolTrace (poolTrace w ++ [PoolGet b]) (set_bufferPool rest w))
    | [] =>
        let b := nextBuf w in
        (Ok b, set_poolTrace (poolTrace w ++ [PoolGet b])
                 (set_nextBuf (S b)
                    (set_heap (<[b := newBufferBytes]> (heap w)) w)))
    end.

(** [bufferPool.Put(b)] *)
Definition bufferPool_Put (b : bufid) : M unit :=
  modify (fun w =>
    set_poolTrace (poolTrace w ++ [PoolPut b])
      (set_bufferPool (b :: bufferPool w) w)).

(** [bufPoolCloser.Close]: puts the buffer back and returns a nil error. *)
Definition Close (bpc : bufPoolCloser) : M unit :=
  bufferPool_Put (buf bpc).

(** [Close] called [k] times in a row on the same replayable body. *)
Fixpoint Close_times (k : nat) (bpc : bufPoolCloser) : M unit :=
  match k with
  | O => ret tt
  | S k' => Close bpc ;;; Close_times k' bpc
  end.

#[global] Instance poolEvent_eq_dec : EqDecision poolEvent.
Proof. solve_decision. Defined.



(** ** Reading *)

(** One [Read] of the transport stream into a destination of [c] bytes:
    the bytes delivered, the error reported, the stream afterwards. *)
Definition stream_Read (c : nat) (s : stream)
  : list byte * option error * stream :=
  match s with
  | [] => ([], Some EOF, [])
  | ch :: rest =>
      if (length (chunk_data ch) <=? c)%nat
      then (chunk_data ch, chunk_err ch, rest)
      else (take c (chunk_data ch), None,
            mkChunk (drop c (chunk_data ch)) (chunk_err ch) :: rest)
  end.

(** [io.ReadAtLeast(s, dst, 1)] on the transport stream, [c] being
    [len(dst)]: the loop [for n < 1 && err == nil] calls [Read] until a
    call delivers a byte or reports an error; [n >= 1] then clears the
    error. *)
Fixpoint stream_ReadAtLeast (c : nat) (s : stream)
  : list byte * option error * stream :=
  match s with
  | [] => ([], Some EOF, [])
  | ch :: rest =>
      match chunk_data ch, chunk_err ch with
      | [], None => stream_ReadAtLeast c rest
      | [], Some err => ([], Some err, rest)
      | _ :: _, _ =>
          if (length (chunk_data ch) <=? c)%nat
          then (chunk_data ch, None, rest)
          else (take c (chunk_data ch), None,
                mkChunk (drop c (chunk_data ch)) (chunk_err ch) :: rest)
      end
  end.

(** The slice a [bytes.Reader] reads from. *)
Definition view (h : gmap bufid (list byte)) (r : bytesReader) : list byte :=
  take (rd_len r) (h !!! rd_buf r).

(** [bytes.Reader.Read] into a destination of [c] bytes. *)
Definition bytesReader_Read (c : nat) (h : gmap bufid (list byte))
    (r : bytesReader) : list byte * option error * bytesReader :=
  if (length (view h r) <=? rd_i r)%nat
  then ([], Some EOF, r)
  else
    let data := take c (drop (rd_i r) (view h r)) in
    (data, None, mkReader (rd_buf r) (rd_len r) (rd_i r + length data)).

(** [io.ReadAtLeast(body, dst, 1)] for each dynamic type of the body. A
    [bytes.Reader] and [http.NoBody] answer the first [Read] with a byte
    or with [EOF], so the loop body runs once. *)
Definition ReadCloser_ReadAtLeast (c : nat) (h : gmap bufid (list byte))
    (rc : ReadCloser) : list byte * option error * ReadCloser :=
  match rc with
  | http_NoBody => ([], Some EOF, http_NoBody)
  | transportBody s =>
      let '(data, err, s') := stream_ReadAtLeast c s in
      (data, err, transportBody s')
  | replayBody bpc =>
      let '(data, err, r') := bytesReader_Read c h (Reader bpc) in
      (data, err, replayBody (mkBufPoolCloser r' (buf bpc)))
  end.

(** Writing [data] at the start of buffer [b], the rest of it untouched. *)
Definition heap_write (b : bufid) (data : list byte)
    (h : gmap bufid (list byte)) : gmap bufid (list byte) :=
  <[b := data ++ drop (length data) (h !!! b)]> h.

(** [io.ReadAtLeast(funcContext.req.Body, *buf, 1)]: reads from the
    request's current body into the pooled buffer [dst], whose length is
    that of every buffer [newBuffer] makes (see [wellFormed]). Returns
    [(n, err)]. The accessor calls it behind its guard, with a context and
    a non-nil body; the other two branches are never run. *)
Definition io_ReadAtLeast_Body (dst : bufid) : M (nat * option error) :=
  fun w =>
    match ctxValue w with
    | Some fc =>
        match Body (req fc) with
        | Some rc =>
            let '(data, err, rc') := ReadCloser_ReadAtLeast bufferSize (heap w) rc in
            (Ok (length data, err),
             set_heap (heap_write dst data (heap w))
               (set_ctxValue (Some (set_req_Body (Some rc') fc)) w))
        | None => (Ok (0, Some EOF), w)
        end
    | None => (Ok (0, Some EOF), w)
    end.

(** [io.ReadAll] on the transport stream: every byte up to the first
    error, which is dropped when it is [EOF]. *)
Fixpoint stream_ReadAll (s : stream) : list byte * option error :=
  match s with
  | [] => ([], None)
  | ch :: rest =>
      match chunk_err ch with
      | None =>
          let '(data, err) := stream_ReadAll rest in
          (chunk_data ch ++ data, err)
      | Some EOF => (chunk_data ch, None)
      | Some err => (chunk_data ch, Some err)
      end
  end.

(** What [io.ReadAll] on a body yields, in a world with heap [h]. *)
Definition ReadCloser_ReadAll (h : gmap bufid (list byte)) (rc : ReadCloser)
  : list byte * option error :=
  match rc with
  | http_NoBody => ([], None)
  | transportBody s => stream_ReadAll s
  | replayBody bpc => (drop (rd_i (Reader bpc)) (view h (Reader bpc)), None)
  end.

(** [bytes.NewReader(body[:n])] over the buffer [b]. *)
Definition bytes_NewReader (b : bufid) (n : nat) : bytesReader :=
  mkReader b n 0.

(** [bodyReader.Seek(0, io.SeekStart)] *)
Definition Seek_start (r : bytesReader) : bytesReader :=
  mkReader (rd_buf r) (rd_len r) 0.

(** ** The two custom functions *)

Section Builtins.

(** Library functions the bridge calls and this development leaves
    open: [reference.WithName]; [json.Unmarshal] into a [v1.Manifest];
    and [ast.ValueFromReader], given the unread bytes of the reader and
    answering with the value or the error and with how many of the
    bytes it took from the reader. *)
Variable reference_WithName : string -> result Named.
Variable json_Unmarshal : list byte -> result Manifest.
Variable ast_ValueFromReader : list byte -> result Value * nat.

(** [ast.ValueFromReader(bodyReader)]: the reader advances by what the
    decoder took. *)
Definition ValueFromReader (bodyReader : bytesReader)
  : M (Value * bytesReader) :=
  fun w =>
    let unread := drop (rd_i bodyReader) (view (heap w) bodyReader) in
    let '(res, taken) := ast_ValueFromReader unread in
    match res with
    | Ok v =>
        (Ok (v, mkReader (rd_buf bodyReader) (rd_len bodyReader)
                  (rd_i bodyReader + Nat.min taken (length unread))), w)
    | Err err => (Err err, w)
    end.

(** The deferred closure of both functions: when the function returns
    a non-nil [errFn], store it, wrapped with the location and the
    function's name, in [funcContext.builtinErr], then cancel. *)
Definition deferred {A} (Location name : string) (body : M A) : M A :=
  fun w =>
    match body w with
    | (Ok a, w') => (Ok a, w')
    | (Err errFn, w') =>
        let wrapped :=
          Errorf_w (Location +:+ " builtin eval " +:+ name +:+ " error: ") errFn in
        (Err errFn,
         set_Cancelled true
           (set_ctxValue (set_builtinErr (Some wrapped) <$> ctxValue w') w'))
    end.

(** The loop over [manifest.Layers]. *)
Fixpoint scanLayers (mediaType : string) (layers : list Descriptor) : Term :=
  match layers with
  | [] => StringTerm ""
  | layer :: rest =>
      if negb (String.eqb (MediaType layer) mediaType)
      then scanLayers mediaType rest
      else StringTerm (Hex (Digest layer))
  end.

Definition ociBlobDigestBuiltin (Location : string) (a b : Term) : M Term :=
  ctx <- gets ctxValue ;;
  match ctx with
  | None => bctx_Cancel ;;; fail (Errorf "bad context")
  | Some funcContext =>
    deferred Location "oci.blob_digest" (
      match Term_Value a with
      | ast_String astRef =>
        match Term_Value b with
        | ast_String astMediaType =>
          let ref := astRef in
          let tagIndex := LastIndexByte ref colon in
          if (tagIndex <? 0)%Z then fail (Errorf "reference without tag") else
          namedRef <- orFail (reference_WithName (slice_to ref tagIndex))
                        (fun _ => Errorf "bad reference name") ;;
          calling (CallRepository namedRef) ;;;
          repository <- orFail (Namespace_Repository (registry funcContext) namedRef)
                          (Errorf_w ("while getting repository "
                                     +:+ Named_String namedRef +:+ ": ")) ;;
          calling (CallTagsGet (slice_from ref (tagIndex + 1))) ;;;
          match TagService_Get (Tags repository) (slice_from ref (tagIndex + 1)) with
          | Err err =>
              if errors_As_ErrTagUnknown err
              then ret (StringTerm "")
              else fail (Errorf_w ("while getting tag "
                                   +:+ slice_from ref (tagIndex + 1) +:+ ": ") err)
          | Ok tagDesc_Digest =>
              calling CallManifests ;;;
              manifestService <- orFail (Manifests repository)
                                   (Errorf_w ("while getting manifest service for "
                                              +:+ Named_String namedRef +:+ ": ")) ;;
              calling (CallManifestGet tagDesc_Digest) ;;;
              registryManifest <- orFail (ManifestService_Get manifestService tagDesc_Digest)
                                    (Errorf_w ("while getting manifest for "
                                               +:+ Named_String namedRef +:+ ": ")) ;;
              calling CallPayload ;;;
              payload <- orFail (Payload registryManifest) (fun err => err) ;;
              let manifestPayload := snd payload in
              manifest <- orFail (json_Unmarshal manifestPayload) (fun err => err) ;;
              let mediaType := astMediaType in
              ret (scanLayers mediaType (Layers manifest))
          end
        | _ => fail (Errorf "oci layer mediatype is not a string")
        end
      | _ => fail (Errorf "oci reference is not a string")
      end)
  end.

Definition requestBodyBuiltin (Location : string) : M Term :=
  ctx <- gets ctxValue ;;
  match ctx with
  | None => bctx_Cancel ;;; fail (Errorf "bad context")
  | Some _ =>
    deferred Location "request.body" (
      body <- gets requestBody ;;
      if hasBody body then
        buf <- bufferPool_Get ;;
        r <- io_ReadAtLeast_Body buf ;;
        let '(n, err) := r in
        match err with
        | Some _ => fail (Errorf "empty body request")
        | None =>
            let bodyReader := bytes_NewReader buf n in
            p <- ValueFromReader bodyReader ;;
            let '(v, bodyReader) := p in
            let bodyReader := Seek_start bodyReader in
            modify (fun w =>
              set_ctxValue
                (set_req_Body (Some (replayBody (mkBufPoolCloser bodyReader buf)))
                   <$> ctxValue w) w) ;;;
            ret (NewTerm v)
        end
      else
        let '(v, err) := InterfaceToValue_nil in
        match err with
        | None => ret (NewTerm v)
        | Some err => fail err
        end)
  end.

End Builtins.

(** ** Sample collaborators

    A small registry, decoder and request worlds to run the functions on. *)

Module Sample.

Definition bytes (s : string) : list byte := list_byte_of_string s.

Definition WithName (name : string) : result Named :=
  if ((0 <? String.length name) && (String.length name <=? 255))%nat
  then Ok (mkNamed name)
  else Err (errorString "invalid reference format").

Definition layer (mediaType hex : string) : Descriptor :=
  mkDescriptor mediaType 0 (mkHash "sha256" hex).

Definition manifest : Manifest :=
  mkManifest 2 (layer "application/config" "c0")
    [layer "application/tar" "aa";
     layer "application/rpm" "bb";
     layer "application/rpm" "cc"].

Definition Unmarshal (payload : list byte) : result Manifest :=
  if String.eqb (string_of_list_byte payload) "manifest"
  then Ok manifest
  else Err (errorString "unexpected end of JSON input").

(** Decodes the literals [true] and [null] only. *)
Definition ValueFromReader (unread : list byte) : result Value * nat :=
  if String.eqb (string_of_list_byte unread) "true" then (Ok (Boolean true), 4)
  else if String.eqb (string_of_list_byte unread) "null" then (Ok Null, 4)
  else (Err (errorString "invalid character"), length unread).

Definition tags : TagService :=
  {| TagService_Get := fun tag =>
       if String.eqb tag "latest" then Ok "sha256:m1"
       else if String.eqb tag "broken" then Err (errorString "backend down")
       else Err (ErrTagUnknown tag) |}.

Definition manifests : ManifestService :=
  {| ManifestService_Get := fun _ =>
       Ok {| Payload := Ok ("application/vnd.oci.image.manifest.v1+json",
                            bytes "manifest") |} |}.

Definition repo : Repository :=
  {| Tags := tags; Manifests := Ok manifests |}.

Definition registry : Namespace :=
  {| Namespace_Repository := fun _ => Ok repo |}.

(** A fresh evaluation of a request with the given body: context
    attached, empty error slot, not cancelled, empty pool. *)
Definition world (body : option ReadCloser) : World :=
  mkWorld (Some (mkFuncContext (mkRequest body) registry None))
          false [] ∅ 0 [] [].

(** The same evaluation with no context attached. *)
Definition world_without_context : World :=
  mkWorld None false [] ∅ 0 [] [].

Definition oci_blob_digest : string -> Term -> Term -> M Term :=
  ociBlobDigestBuiltin WithName Unmarshal.

Definition request_body : string -> M Term :=
  requestBodyBuiltin ValueFromReader.

End Sample.

(** ** Observations used by the properties *)

(** No byte can be read from the body: the next [io.ReadAtLeast] of one
    byte reports an error. *)
Definition drained (rc : ReadCloser) : Prop :=
  match rc with
  | http_NoBody => True
  | transportBody s => fst (fst (stream_ReadAtLeast bufferSize s)) = []
  | replayBody bpc => rd_len (Reader bpc) <= rd_i (Reader bpc)
  end.

(** The bytes of the stream are fully captured within one buffer-sized
    read: what [io.ReadAtLeast] stages in a pooled buffer is everything
    [io.ReadAll] would have read from the stream. *)
Definition fullyCaptured (s : stream) : Prop :=
  fst (fst (stream_ReadAtLeast bufferSize s)) = fst (stream_ReadAll s).

(** The buffer the next [bufferPool.Get] hands out, and the heap once it
    has (a fresh buffer is allocated when the pool is empty). *)
Definition poolNext (w : World) : bufid * gmap bufid (list byte) :=
  match bufferPool w with
  | b :: _ => (b, heap w)
  | [] => (nextBuf w, <[nextBuf w := newBufferBytes]> (heap w))
  end.

(** The worlds the bridge can reach. Every allocated buffer has the
    length [newBuffer] gives it and lies below [nextBuf]; the pool holds
    allocated buffers only; a replayable body reads from the allocated
    buffer it will put back. *)
Record wellFormed (w : World) : Prop := mkWellFormed {
  wf_sized : forall b bs, heap w !! b = Some bs -> length bs = bufferSize;
  wf_fresh : forall b, is_Some (heap w !! b) -> b < nextBuf w;
  wf_pool : forall b, b ∈ bufferPool w -> is_Some (heap w !! b);
  wf_body : forall bpc,
      requestBody w = Some (replayBody bpc) ->
      is_Some (heap w !! buf bpc) /\ rd_buf (Reader bpc) = buf bpc
}.

(** The content the next consumer of the request reads from its body. *)
Definition bodyContent (w : World) : list byte :=
  match requestBody w with
  | Some rc => fst (ReadCloser_ReadAll (heap w) rc)
  | None => []
  end.

(** The order in which the resolver consults the registry: a run of
    calls is in order when it is a beginning of
    [Repository; Tags.Get; Manifests; ManifestService.Get; Payload]. *)
Definition callOrder (cs : list registryCall) : bool :=
  match cs with
  | [] => true
  | [CallRepository _] => true
  | [CallRepository _; CallTagsGet _] => true
  | [CallRepository _; CallTagsGet _; CallManifests] => true
  | [CallRepository _; CallTagsGet _; CallManifests; CallManifestGet _] => true
  | [CallRepository _; CallTagsGet _; CallManifests; CallManifestGet _;
     CallPayload] => true
  | _ => false
  end.

(** ** More sample worlds *)

Module Sample2.

(** Buffer 0 holding [true] followed by zeros. *)
Definition stagedBuffer : list byte :=
  Sample.bytes "true" ++ replicate (bufferSize - 4) x00.

(** The replayable body over the first four bytes of buffer 0. *)
Definition replay : bufPoolCloser := mkBufPoolCloser (mkReader 0 4 0) 0.

(** An evaluation whose request carries that replayable body, as an
    earlier call of the accessor leaves it. *)
Definition replayed : World :=
  mkWorld
    (Some (mkFuncContext (mkRequest (Some (replayBody replay))) Sample.registry None))
    false [] {[ 0 := stagedBuffer ]} 1 [PoolGet 0] [].

(** Decodes anything as [null], taking every byte. *)
Definition lenient (unread : list byte) : result Value * nat :=
  (Ok Null, length unread).

(** A body of 8193 bytes that arrives in one read. *)
Definition longBody : list byte := replicate (S bufferSize) x20.

End Sample2.

(** ** The event schema: package [eventv1], generated by protoc-gen-go *)

Module eventv1.

(** [type Action int32] and its constants. *)
Definition Action : Type := Z.

Definition Action_ACTION_UNSPECIFIED : Action := 0%Z.
Definition Action_ACTION_PUT : Action := 1%Z.
Definition Action_ACTION_DELETE : Action := 2%Z.
Definition Action_ACTION_START : Action := 3%Z.
Definition Action_ACTION_STOP : Action := 4%Z.

(** The enum value maps. *)
Definition Action_name : gmap Z string :=
  list_to_map
    [(0%Z, "ACTION_UNSPECIFIED");
     (1%Z, "ACTION_PUT");
     (2%Z, "ACTION_DELETE");
     (3%Z, "ACTION_START");
     (4%Z, "ACTION_STOP")].

Definition Action_value : gmap string Z :=
  list_to_map
    [("ACTION_UNSPECIFIED", 0%Z);
     ("ACTION_PUT", 1%Z);
     ("ACTION_DELETE", 2%Z);
     ("ACTION_START", 3%Z);
     ("ACTION_STOP", 4%Z)].

(** [Action.Number]: the conversion to [protoreflect.EnumNumber]. *)
Definition Number (x : Action) : Z := x.

(** [Action.Enum]: a pointer to a fresh copy of [x]. *)
Definition Enum (x : Action) : option Action := Some x.

(** A [*protoimpl.MessageInfo], as its index in
    [file_event_v1_event_proto_msgTypes]. *)
Definition MessageInfo : Type := nat.

(** [EventPayload]. [state] is the [protoimpl.MessageState], that is the
    message info it caches (nil at first); a [[]byte] field is [None]
    when nil. *)
Record EventPayload : Type := mkEventPayload {
  state : option MessageInfo;
  sizeCache : Z;
  unknownFields : option (list byte);
  Repository : string;
  Digest : string;
  Mediatype : string;
  Payload : option (list byte);
  EventPayload_Action : Action
}.

(** [EventPayload{}] *)
Definition EventPayload_zero : EventPayload :=
  mkEventPayload None 0%Z None "" "" "" None 0%Z.

(** [ms.StoreMessageInfo(mi)] on the state of [x]. *)
Definition StoreMessageInfo (mi : MessageInfo) (x : EventPayload) : EventPayload :=
  mkEventPayload (Some mi) (sizeCache x) (unknownFields x) (Repository x)
    (Digest x) (Mediatype x) (Payload x) (EventPayload_Action x).

(** What [ProtoReflect] answers with: the message's own state, or a
    reflection made by [mi.MessageOf]. *)
Inductive reflection : Type :=
| viaMessageState
| viaMessageOf (mi : MessageInfo).

(** The getters, on a receiver that may be nil. *)
Definition GetRepository (x : option EventPayload) : string :=
  match x with
  | Some x => Repository x
  | None => ""
  end.

Definition GetDigest (x : option EventPayload) : string :=
  match x with
  | Some x => Digest x
  | None => ""
  end.

Definition GetMediatype (x : option EventPayload) : string :=
  match x with
  | Some x => Mediatype x
  | None => ""
  end.

Definition GetPayload (x : option EventPayload) : option (list byte) :=
  match x with
  | Some x => Payload x
  | None => None
  end.

Definition GetAction (x : option EventPayload) : Action :=
  match x with
  | Some x => EventPayload_Action x
  | None => Action_ACTION_UNSPECIFIED
  end.

(** [file_event_v1_event_proto_rawDesc], as the source lists it. *)
Definition file_event_v1_event_proto_rawDesc : list byte :=
  [
   x0a; x14; x65; x76; x65; x6e; x74; x2f; x76; x31; x2f; x65;
   x76; x65; x6e; x74; x2e; x70; x72; x6f; x74; x6f; x12; x13;
   x62; x65; x73; x6b; x61; x72; x2e; x61; x70; x69; x2e; x65;
   x76; x65; x6e; x74; x2e; x76; x31; x22; xb3; x01; x0a; x0c;
   x45; x76; x65; x6e; x74; x50; x61; x79; x6c; x6f; x61; x64;
   x12; x1e; x0a; x0a; x72; x65; x70; x6f; x73; x69; x74; x6f;
   x72; x79; x18; x01; x20; x01; x28; x09; x52; x0a; x72; x65;
   x70; x6f; x73; x69; x74; x6f; x72; x79; x12; x16; x0a; x06;
   x64; x69; x67; x65; x73; x74; x18; x02; x20; x01; x28; x09;
   x52; x06; x64; x69; x67; x65; x73; x74; x12; x1c; x0a; x09;
   x6d; x65; x64; x69; x61; x74; x79; x70; x65; x18; x03; x20;
   x01; x28; x09; x52; x09; x6d; x65; x64; x69; x61; x74; x79;
   x70; x65; x12; x18; x0a; x07; x70; x61; x79; x6c; x6f; x61;
   x64; x18; x04; x20; x01; x28; x0c; x52; x07; x70; x61; x79;
   x6c; x6f; x61; x64; x12; x33; x0a; x06; x61; x63; x74; x69;
   x6f; x6e; x18; x05; x20; x01; x28; x0e; x32; x1b; x2e; x62;
   x65; x73; x6b; x61; x72; x2e; x61; x70; x69; x2e; x65; x76;
   x65; x6e; x74; x2e; x76; x31; x2e; x41; x63; x74; x69; x6f;
   x6e; x52; x06; x61; x63; x74; x69; x6f; x6e; x2a; x66; x0a;
   x06; x41; x63; x74; x69; x6f; x6e; x12; x16; x0a; x12; x41;
   x43; x54; x49; x4f; x4e; x5f; x55; x4e; x53; x50; x45; x43;
   x49; x46; x49; x45; x44; x10; x00; x12; x0e; x0a; x0a; x41;
   x43; x54; x49; x4f; x4e; x5f; x50; x55; x54; x10; x01; x12;
   x11; x0a; x0d; x41; x43; x54; x49; x4f; x4e; x5f; x44; x45;
   x4c; x45; x54; x45; x10; x02; x12; x10; x0a; x0c; x41; x43;
   x54; x49; x4f; x4e; x5f; x53; x54; x41; x52; x54; x10; x03;
   x12; x0f; x0a; x0b; x41; x43; x54; x49; x4f; x4e; x5f; x53;
   x54; x4f; x50; x10; x04; x42; x2c; x5a; x2a; x67; x6f; x2e;
   x63; x69; x71; x2e; x64; x65; x76; x2f; x62; x65; x73; x6b;
   x61; x72; x2f; x70; x6b; x67; x2f; x61; x70; x69; x2f; x65;
   x76; x65; x6e; x74; x2f; x76; x31; x3b; x65; x76; x65; x6e;
   x74; x76; x31; x62; x06; x70; x72; x6f; x74; x6f; x33
  ].

(** The entries of [file_event_v1_event_proto_goTypes]. *)
Inductive goType : Type :=
| goType_Action
| goType_EventPayload.

(** What the [Exporter] installed by the init function hands out. *)
Inductive exported : Type :=
| export_state
| export_sizeCache
| export_unknownFields.

Definition Exporter (i : Z) : option exported :=
  match i with
  | 0%Z => Some export_state
  | 1%Z => Some export_sizeCache
  | 2%Z => Some export_unknownFields
  | _ => None
  end.

(** The [protoimpl.TypeBuilder] the init function fills in (the package
    path, which it reads by reflection, and the info slices it lends to
    [Build] are left out). *)
Record TypeBuilder : Type := mkTypeBuilder {
  RawDescriptor : option (list byte);
  NumEnums : Z;
  NumMessages : Z;
  NumExtensions : Z;
  NumServices : Z;
  GoTypes : option (list goType);
  DependencyIndexes : option (list Z)
}.

Section Generated.

(** Left open: [protoimpl.UnsafeEnabled], [protoimpl.X.CompressGZIP], the
    type of a [protoreflect.FileDescriptor] and [TypeBuilder.Build], which
    answers with a file descriptor (it panics rather than return none). *)
Variable UnsafeEnabled : bool.
Variable CompressGZIP : list byte -> list byte.
Variable FileDescriptor : Type.
Variable Build : TypeBuilder -> FileDescriptor.

(** [EventPayload.Reset], as the new content of the receiver. *)
Definition Reset (x : EventPayload) : EventPayload :=
  let x := EventPayload_zero in
  if UnsafeEnabled then StoreMessageInfo 0 x else x.

(** [EventPayload.ProtoReflect], with the content of the receiver
    afterwards. *)
Definition ProtoReflect (x : option EventPayload)
  : reflection * option EventPayload :=
  let mi : MessageInfo := 0 in
  match x with
  | Some x' =>
      if UnsafeEnabled
      then
        match state x' with
        | None => (viaMessageState, Some (StoreMessageInfo mi x'))
        | Some _ => (viaMessageState, Some x')
        end
      else (viaMessageOf mi, x)
  | None => (viaMessageOf mi, x)
  end.

(** The package-level variables of the generated file. [builds] lists
    the builders given to [Build], in order (ghost state). *)
Record Package : Type := mkPackage {
  File_event_v1_event_proto : option FileDescriptor;
  rawDesc : option (list byte);
  rawDescOnce : bool;
  rawDescData : list byte;
  goTypes : option (list goType);
  depIdxs : option (list Z);
  msgTypes_Exporter : bool;
  builds : list TypeBuilder
}.

(** The package once its variables are initialised, before any [init]. *)
Definition initialPackage : Package :=
  mkPackage None (Some file_event_v1_event_proto_rawDesc) false
    file_event_v1_event_proto_rawDesc
    (Some [goType_Action; goType_EventPayload])
    (Some [0; 1; 1; 1; 1; 0]%Z)
    false [].

(** [file_event_v1_event_proto_rawDescGZIP]: [sync.Once] runs the
    compression the first time only. *)
Definition file_event_v1_event_proto_rawDescGZIP (p : Package)
  : list byte * Package :=
  let p :=
    if rawDescOnce p then p
    else mkPackage (File_event_v1_event_proto p) (rawDesc p) true
           (CompressGZIP (rawDescData p)) (goTypes p) (depIdxs p)
           (msgTypes_Exporter p) (builds p) in
  (rawDescData p, p).

(** [Action.EnumDescriptor] and [EventPayload.Descriptor] (deprecated). *)
Definition EnumDescriptor (p : Package) : (list byte * list Z) * Package :=
  let '(b, p) := file_event_v1_event_proto_rawDescGZIP p in
  ((b, [0%Z]), p).

Definition Descriptor (p : Package) : (list byte * list Z) * Package :=
  let '(b, p) := file_event_v1_event_proto_rawDescGZIP p in
  ((b, [0%Z]), p).

(** [file_event_v1_event_proto_init] *)
Definition file_event_v1_event_proto_init (p : Package) : Package :=
  match File_event_v1_event_proto p with
  | Some _ => p
  | None =>
      let exporter := if negb UnsafeEnabled then true else msgTypes_Exporter p in
      let builder :=
        mkTypeBuilder (rawDesc p) 1 1 0 0 (goTypes p) (depIdxs p) in
      let out_File := Build builder in
      mkPackage (Some out_File) None (rawDescOnce p) (rawDescData p) None None
        exporter (builds p ++ [builder])
  end.

(** The calls a program can make on the package. *)
Inductive call : Type :=
| call_init
| call_rawDescGZIP
| call_EnumDescriptor
| call_Descriptor.

(** Runs the calls in order; collects the descriptor bytes returned. *)
Fixpoint calls (cs : list call) (p : Package) : list (list byte) * Package :=
  match cs with
  | [] => ([], p)
  | c :: cs' =>
      match c with
      | call_init => calls cs' (file_event_v1_event_proto_init p)
      | call_rawDescGZIP =>
          let '(b, p') := file_event_v1_event_proto_rawDescGZIP p in
          let '(bs, p'') := calls cs' p' in
          (b :: bs, p'')
      | call_EnumDescriptor =>
          let '(r, p') := EnumDescriptor p in
          let '(bs, p'') := calls cs' p' in
          (fst r :: bs, p'')
      | call_Descriptor =>
          let '(r, p') := Descriptor p in
          let '(bs, p'') := calls cs' p' in
          (fst r :: bs, p'')
      end
  end.

(** The builder the first [init] gives to [Build]. *)
Definition firstBuilder : TypeBuilder :=
  mkTypeBuilder (Some file_event_v1_event_proto_rawDesc) 1 1 0 0
    (Some [goType_Action; goType_EventPayload])
    (Some [0; 1; 1; 1; 1; 0]%Z).

(** The package before its types are built, and after. *)
Definition unbuilt (p : Package) : Prop :=
  File_event_v1_event_proto p = None
  /\ rawDesc p = Some file_event_v1_event_proto_rawDesc
  /\ goTypes p = Some [goType_Action; goType_EventPayload]
  /\ depIdxs p = Some [0; 1; 1; 1; 1; 0]%Z
  /\ builds p = [].

Definition built (p : Package) : Prop :=
  File_event_v1_event_proto p = Some (Build firstBuilder)
  /\ rawDesc p = None
  /\ goTypes p = None
  /\ depIdxs p = None
  /\ builds p = [firstBuilder].

End Generated.

Arguments File_event_v1_event_proto {FileDescriptor} p.
Arguments rawDesc {FileDescriptor} p.
Arguments rawDescOnce {FileDescriptor} p.
Arguments rawDescData {FileDescriptor} p.
Arguments goTypes {FileDescriptor} p.
Arguments depIdxs {FileDescriptor} p.
Arguments msgTypes_Exporter {FileDescriptor} p.
Arguments builds {FileDescriptor} p.
Arguments file_event_v1_event_proto_rawDescGZIP CompressGZIP {FileDescriptor} p.
Arguments EnumDescriptor CompressGZIP {FileDescriptor} p.
Arguments Descriptor CompressGZIP {FileDescriptor} p.
Arguments file_event_v1_event_proto_init UnsafeEnabled {FileDescriptor} Build p.
Arguments calls UnsafeEnabled CompressGZIP {FileDescriptor} Build cs p.
Arguments unbuilt {FileDescriptor} p.
Arguments built {FileDescriptor} Build p.

End eventv1.

(** * Properties *)

(** ** Splitting a reference at its last colon *)

Section Strings.

(** A string without [c] has no [c] at any index. *)
Lemma countByte_zero_get (c : ascii) (s : string) :
  countByte c s = 0 ->
  forall i a, String.get i s = Some a -> Ascii.eqb a c = false.
Proof.
  induction s as [|b s IH]; simpl; intros Hc i a Hget.
  - destruct i; discriminate.
  - destruct (Ascii.eqb b c) eqn:Hb; [simpl in Hc; lia|].
    destruct i as [|i].
    + inversion Hget; subst. exact Hb.
    + eapply IH; [simpl in Hc; lia | exact Hget].
Qed.

Lemma lastIndexByteFrom_absent (c : ascii) (s : string) (k : nat) :
  countByte c s = 0 -> lastIndexByteFrom s c k = (-1)%Z.
Proof.
  intros Hc. induction k as [|i IH]; simpl; [reflexivity|].
  destruct (String.get i s) as [a|] eqn:Hget; [|exact IH].
  rewrite (countByte_zero_get c s Hc i a Hget). exact IH.
Qed.

Lemma LastIndexByte_absent (c : ascii) (s : string) :
  countByte c s = 0 -> LastIndexByte s c = (-1)%Z.
Proof. apply lastIndexByteFrom_absent. Qed.

Lemma get_app_right (s t : string) (j : nat) :
  String.get (String.length s + j) (s +:+ t) = String.get j t.
Proof. induction s as [|a s IH]; simpl; [reflexivity | exact IH]. Qed.

(** Scanning down from anywhere in the tag stops at the colon that
    precedes it. *)
Lemma lastIndexByteFrom_last (c : ascii) (name tag : string) (j : nat) :
  countByte c tag = 0 ->
  lastIndexByteFrom (name +:+ String c tag) c (String.length name + S j)
  = Z.of_nat (String.length name).
Proof.
  intros Hc. induction j as [|j IH].
  - replace (String.length name + 1) with (S (String.length name + 0)) by lia.
    simpl. rewrite get_app_right. simpl. rewrite Ascii.eqb_refl.
    f_equal. lia.
  - replace (String.length name + S (S j)) with (S (String.length name + S j)) by lia.
    simpl. rewrite get_app_right. simpl.
    destruct (String.get j tag) as [a|] eqn:Hget; [|exact IH].
    rewrite (countByte_zero_get c tag Hc j a Hget). exact IH.
Qed.

Lemma length_append (s t : string) :
  String.length (s +:+ t) = String.length s + String.length t.
Proof. induction s as [|a s IH]; simpl; [reflexivity | rewrite IH; reflexivity]. Qed.

Lemma LastIndexByte_last (c : ascii) (name tag : string) :
  countByte c tag = 0 ->
  LastIndexByte (name +:+ String c tag) c = Z.of_nat (String.length name).
Proof.
  intros Hc. unfold LastIndexByte. rewrite length_append. simpl.
  apply lastIndexByteFrom_last. exact Hc.
Qed.

Lemma substring_prefix (s t : string) :
  String.substring 0 (String.length s) (s +:+ t) = s.
Proof.
  induction s as [|a s IH]; simpl.
  - destruct t; reflexivity.
  - rewrite IH. reflexivity.
Qed.

Lemma substring_all (t : string) :
  String.substring 0 (String.length t) t = t.
Proof. induction t as [|a t IH]; simpl; [reflexivity | rewrite IH; reflexivity]. Qed.

Lemma substring_suffix (s t : string) :
  String.substring (String.length s) (String.length t) (s +:+ t) = t.
Proof. induction s as [|a s IH]; simpl; [apply substring_all | exact IH]. Qed.

Lemma slice_to_name (c : ascii) (name tag : string) :
  slice_to (name +:+ String c tag) (Z.of_nat (String.length name)) = name.
Proof. unfold slice_to. rewrite Nat2Z.id. apply substring_prefix. Qed.

Lemma substring_drop (p t : string) :
  String.substring (String.length p)
    (String.length (p +:+ t) - String.length p) (p +:+ t) = t.
Proof.
  rewrite length_append, Nat.add_comm, Nat.add_sub. apply substring_suffix.
Qed.

Lemma append_cons (a : ascii) (s t : string) :
  String a s +:+ t = String a (s +:+ t).
Proof. reflexivity. Qed.

Lemma app_cons_assoc (c : ascii) (name tag : string) :
  name +:+ String c tag = (name +:+ String c EmptyString) +:+ tag.
Proof.
  induction name as [|a name IH]; [reflexivity|].
  rewrite !append_cons. f_equal. exact IH.
Qed.

Lemma slice_from_tag (c : ascii) (name tag : string) :
  slice_from (name +:+ String c tag) (Z.of_nat (String.length name) + 1) = tag.
Proof.
  unfold slice_from.
  replace (Z.to_nat (Z.of_nat (String.length name) + 1))
    with (String.length (name +:+ String c EmptyString))
    by (rewrite length_append; simpl; lia).
  rewrite (app_cons_assoc c name tag). apply substring_drop.
Qed.

(** A string with a [c] splits around its last [c]. *)
Lemma split_last (c : ascii) (ref : string) :
  0 < countByte c ref ->
  exists name tag,
    ref = name +:+ String c tag /\ countByte c tag = 0
    /\ countByte c ref = S (countByte c name).
Proof.
  induction ref as [|a ref IH]; simpl; intros Hc; [lia|].
  destruct (countByte c ref) as [|n] eqn:Hn.
  - destruct (Ascii.eqb a c) eqn:Ha; [|simpl in Hc; lia].
    apply Ascii.eqb_eq in Ha. subst a.
    exists EmptyString, ref. simpl. auto.
  - destruct IH as (name & tag & -> & Htag & Hcount); [lia|].
    exists (String a name), tag. simpl. split; [reflexivity|].
    split; [exact Htag|]. lia.
Qed.

(** [LastIndexByte] is negative exactly on strings without [c]. *)
Lemma LastIndexByte_negative (c : ascii) (s : string) :
  (LastIndexByte s c < 0)%Z <-> countByte c s = 0.
Proof.
  split.
  - intros Hneg. destruct (countByte c s) as [|n] eqn:Hn; [reflexivity|].
    destruct (split_last c s) as (name & tag & -> & Htag & _); [lia|].
    rewrite (LastIndexByte_last c name tag Htag) in Hneg. lia.
  - intros Hc. rewrite (LastIndexByte_absent c s Hc). lia.
Qed.

End Strings.

(** Case analysis on an innermost scrutinee of the goal. *)
Ltac split_match :=
  match goal with
  | |- context [match ?x with _ => _ end] =>
      lazymatch x with
      | context [match _ with _ => _ end] => fail
      | _ => destruct x eqn:?; simpl
      end
  end.

(** Unfolds a run of the request-body accessor. *)
Ltac run_accessor :=
  unfold requestBodyBuiltin, bind, gets, deferred, modify, ret, fail,
    bctx_Cancel, io_ReadAtLeast_Body, ValueFromReader, bufferPool_Get,
    bytes_NewReader, Seek_start, requestBody; simpl.

(** ** The blob-digest resolver *)

Section Resolver.

Variable reference_WithName : string -> result Named.
Variable json_Unmarshal : list byte -> result Manifest.

Local Abbreviation ociBlobDigest :=
  (ociBlobDigestBuiltin reference_WithName json_Unmarshal).

Arguments LastIndexByte : simpl never.
Arguments slice_to : simpl never.
Arguments slice_from : simpl never.
Arguments String.append : simpl never.

Ltac run_resolver :=
  unfold ociBlobDigestBuiltin, bind, gets, deferred, orFail, calling, modify,
    ret, fail, bctx_Cancel; simpl.

Lemma of_nat_ltb_0 (n : nat) : (Z.of_nat n <? 0)%Z = false.
Proof. apply Z.ltb_ge. lia. Qed.

Lemma scanLayers_first (mediaType : string) (pre post : list Descriptor)
    (layer : Descriptor) :
  Forall (fun l => MediaType l <> mediaType) pre ->
  MediaType layer = mediaType ->
  scanLayers mediaType (pre ++ layer :: post) = StringTerm (Hex (Digest layer)).
Proof.
  intros Hpre Hlayer. induction Hpre as [|l pre Hl _ IH]; simpl.
  - apply String.eqb_eq in Hlayer. rewrite Hlayer. reflexivity.
  - apply String.eqb_neq in Hl. rewrite Hl. simpl. exact IH.
Qed.

Lemma scanLayers_none (mediaType : string) (layers : list Descriptor) :
  Forall (fun l => MediaType l <> mediaType) layers ->
  scanLayers mediaType layers = StringTerm "".
Proof.
  intros H. induction H as [|l layers Hl _ IH]; simpl; [reflexivity|].
  apply String.eqb_neq in Hl. rewrite Hl. simpl. exact IH.
Qed.


(** What the deferred closure leaves behind, for either outcome. *)
Lemma ociBlobDigest_outcome (Location : string) (a b : Term) (w : World)
    (fc : funcContext) :
  ctxValue w = Some fc ->
  match fst (ociBlobDigest Location a b w) with
  | Ok _ =>
      errorSlot (snd (ociBlobDigest Location a b w)) = errorSlot w
      /\ Cancelled (snd (ociBlobDigest Location a b w)) = Cancelled w
  | Err errFn =>
      errorSlot (snd (ociBlobDigest Location a b w))
      = Some (Errorf_w (Location +:+ " builtin eval oci.blob_digest error: ") errFn)
      /\ Cancelled (snd (ociBlobDigest Location a b w)) = true
  end.
Proof.
  intros Hctx. run_resolver. rewrite Hctx. simpl.
  repeat split_match; unfold errorSlot; simpl; rewrite ?Hctx; auto.
Qed.

(** The resolver touches neither the pool, nor the buffers, nor the
    request body. *)
Lemma ociBlobDigest_frame (Location : string) (a b : Term) (w : World) :
  poolTrace (snd (ociBlobDigest Location a b w)) = poolTrace w
  /\ bufferPool (snd (ociBlobDigest Location a b w)) = bufferPool w
  /\ heap (snd (ociBlobDigest Location a b w)) = heap w
  /\ nextBuf (snd (ociBlobDigest Location a b w)) = nextBuf w
  /\ requestBody (snd (ociBlobDigest Location a b w)) = requestBody w.
Proof.
  run_resolver. unfold requestBody.
  repeat split_match; repeat split; try congruence;
    match goal with
    | Hc : ctxValue w = _, Hm : _ <$> ctxValue w = _ |- _ =>
        rewrite Hc in Hm; simpl in Hm; try discriminate;
        injection Hm as <-; reflexivity
    end.
Qed.

(** Runs the resolver on [name:tag] up to the tag lookup. *)
Ltac to_tag_lookup Hctx Htag Hname Hrepo :=
  run_resolver; rewrite Hctx; simpl;
  rewrite (LastIndexByte_last colon _ _ Htag), of_nat_ltb_0,
    slice_to_name, Hname, Hrepo, slice_from_tag.

(** C7: a reference without any colon fails with the parse error
    "reference without tag", and the resolver makes no call on the
    registry collaborator. *)
Theorem C7_no_colon_fails_before_registry
    (Location ref mediaType : string) (w : World) (fc : funcContext) :
  ctxValue w = Some fc ->
  countByte colon ref = 0 ->
  fst (ociBlobDigest Location (StringTerm ref) (StringTerm mediaType) w)
    = Err (Errorf "reference without tag")
  /\ registryTrace (snd (ociBlobDigest Location (StringTerm ref) (StringTerm mediaType) w))
    = registryTrace w.
Proof.
  intros Hctx Hc. run_resolver. rewrite Hctx. simpl.
  rewrite (LastIndexByte_absent colon ref Hc). simpl. auto.
Qed.

(** C4: a reference with more than one colon is split at its last colon:
    what precedes it (earlier colons included) is the name given to
    [reference.WithName] and then to the registry, what follows it is
    the tag looked up. *)
Theorem C4_split_at_last_colon
    (Location ref mediaType : string) (w : World) (fc : funcContext) :
  ctxValue w = Some fc ->
  1 < countByte colon ref ->
  exists name tag : string,
    ref = name +:+ String colon tag
    /\ countByte colon tag = 0
    /\ 0 < countByte colon name
    /\ (forall e, reference_WithName name = Err e ->
        fst (ociBlobDigest Location (StringTerm ref) (StringTerm mediaType) w)
          = Err (Errorf "bad reference name"))
    /\ (forall namedRef repository,
        reference_WithName name = Ok namedRef ->
        Namespace_Repository (registry fc) namedRef = Ok repository ->
        exists rest,
          registryTrace
            (snd (ociBlobDigest Location (StringTerm ref) (StringTerm mediaType) w))
          = registryTrace w ++ CallRepository namedRef :: CallTagsGet tag :: rest).
Proof.
  intros Hctx Hc.
  destruct (split_last colon ref) as (name & tag & -> & Htag & Hcount); [lia|].
  exists name, tag. repeat split; [exact Htag | lia | |].
  - intros e Hname. run_resolver. rewrite Hctx. simpl.
    rewrite (LastIndexByte_last colon name tag Htag), of_nat_ltb_0.
    rewrite slice_to_name, Hname. reflexivity.
  - intros namedRef repository Hname Hrepo.
    to_tag_lookup Hctx Htag Hname Hrepo.
    repeat split_match; rewrite <- !app_assoc; simpl; eexists; reflexivity.
Qed.

(** What [errors.As] finds for a target of type [ErrTagUnknown]: the
    errors in whose [Unwrap] chain an [ErrTagUnknown] value sits, under
    any number of wrappings, and no other. *)
Lemma errors_As_ErrTagUnknown_chain (err : error) :
  errors_As_ErrTagUnknown err = true
  <-> exists msgs unknown, err = fold_right wrapError (ErrTagUnknown unknown) msgs.
Proof.
  split.
  - induction err as [msg | msg inner IH | unknown |]; simpl; intros Has;
      try discriminate.
    + destruct (IH Has) as (msgs & unknown & ->). exists (msg :: msgs), unknown.
      reflexivity.
    + exists [], unknown. reflexivity.
  - intros (msgs & unknown & ->). induction msgs as [|msg msgs IH]; simpl; auto.
Qed.

(** C5: when the tag lookup fails with an [ErrTagUnknown], bare or
    wrapped any number of times, the resolver returns the empty string,
    records no error and does not cancel. With every other lookup error
    (one whose chain holds no [ErrTagUnknown]) it fails: the error comes
    back wrapped as "while getting tag ...", is recorded in the slot and
    the evaluation is cancelled. *)
Theorem C5_unknown_tag_is_empty_success
    (Location name tag mediaType : string) (w : World) (fc : funcContext)
    (namedRef : Named) (repository : Repository) (err : error) :
  ctxValue w = Some fc ->
  countByte colon tag = 0 ->
  reference_WithName name = Ok namedRef ->
  Namespace_Repository (registry fc) namedRef = Ok repository ->
  TagService_Get (Tags repository) tag = Err err ->
  let run :=
    ociBlobDigest Location (StringTerm (name +:+ String colon tag))
      (StringTerm mediaType) w in
  (forall msgs unknown,
     err = fold_right wrapError (ErrTagUnknown unknown) msgs ->
     fst run = Ok (StringTerm "")
     /\ errorSlot (snd run) = errorSlot w
     /\ Cancelled (snd run) = Cancelled w)
  /\ ((forall msgs unknown,
         err <> fold_right wrapError (ErrTagUnknown unknown) msgs) ->
      fst run = Err (Errorf_w ("while getting tag " +:+ tag +:+ ": ") err)
      /\ errorSlot (snd run)
         = Some (Errorf_w (Location +:+ " builtin eval oci.blob_digest error: ")
                   (Errorf_w ("while getting tag " +:+ tag +:+ ": ") err))
      /\ Cancelled (snd run) = true).
Proof.
  intros Hctx Htag Hname Hrepo Hget run. subst run.
  to_tag_lookup Hctx Htag Hname Hrepo. rewrite Hget.
  split.
  - intros msgs unknown Herr.
    assert (Has : errors_As_ErrTagUnknown err = true)
      by (apply errors_As_ErrTagUnknown_chain; eauto).
    rewrite Has. simpl. unfold errorSlot. simpl. rewrite ?Hctx. auto.
  - intros Hother.
    assert (Has : errors_As_ErrTagUnknown err = false).
    { destruct (errors_As_ErrTagUnknown err) eqn:Has; [|reflexivity].
      apply errors_As_ErrTagUnknown_chain in Has as (msgs & unknown & Herr).
      destruct (Hother msgs unknown Herr). }
    rewrite Has. simpl. unfold errorSlot. simpl. rewrite ?Hctx. auto.
Qed.

(** C6: once the manifest is decoded, the resolver returns the hex digest
    of the first layer, in manifest order, whose media type equals the
    requested one, and the empty string when no layer has it; either way
    it succeeds, records no error and does not cancel. *)
Theorem C6_first_matching_layer
    (Location name tag mediaType : string) (w : World) (fc : funcContext)
    (namedRef : Named) (repository : Repository) (dgst : string)
    (manifestService : ManifestService) (registryManifest : distribution_Manifest)
    (payload : string * list byte) (manifest : Manifest) :
  ctxValue w = Some fc ->
  countByte colon tag = 0 ->
  reference_WithName name = Ok namedRef ->
  Namespace_Repository (registry fc) namedRef = Ok repository ->
  TagService_Get (Tags repository) tag = Ok dgst ->
  Manifests repository = Ok manifestService ->
  ManifestService_Get manifestService dgst = Ok registryManifest ->
  Payload registryManifest = Ok payload ->
  json_Unmarshal (snd payload) = Ok manifest ->
  let run :=
    ociBlobDigest Location (StringTerm (name +:+ String colon tag))
      (StringTerm mediaType) w in
  (forall pre layer post,
      Layers manifest = pre ++ layer :: post ->
      Forall (fun l => MediaType l <> mediaType) pre ->
      MediaType layer = mediaType ->
      fst run = Ok (StringTerm (Hex (Digest layer))))
  /\ (Forall (fun l => MediaType l <> mediaType) (Layers manifest) ->
      fst run = Ok (StringTerm ""))
  /\ errorSlot (snd run) = errorSlot w
  /\ Cancelled (snd run) = Cancelled w.
Proof.
  intros Hctx Htag Hname Hrepo Hget Hms Hmget Hpayload Hjson run. subst run.
  to_tag_lookup Hctx Htag Hname Hrepo.
  rewrite Hget. simpl. rewrite Hms. simpl. rewrite Hmget. simpl.
  rewrite Hpayload. simpl. rewrite Hjson. simpl.
  unfold errorSlot; simpl; rewrite Hctx.
  repeat split.
  - intros pre layer post -> Hpre Hlayer. f_equal.
    apply scanLayers_first; assumption.
  - intros Hnone. f_equal. apply scanLayers_none. exact Hnone.
Qed.

(** C9 (as the code has it): the resolver asks for a colon and for a name
    that [reference.WithName] accepts, and does not check the tag. A
    reference without a colon fails with "reference without tag"; one
    whose name is rejected fails with "bad reference name" before any
    registry call; and for a reference whose last colon is followed by
    nothing, with a name that is accepted and a repository that opens,
    the resolver does not fail at parsing: it looks the empty tag up in
    the registry, and its result is that of the lookup (the empty string
    when the empty tag is reported unknown). *)
Theorem C9_empty_tag_is_looked_up
    (Location ref mediaType : string) (w : World) (fc : funcContext) :
  ctxValue w = Some fc ->
  let run := ociBlobDigest Location (StringTerm ref) (StringTerm mediaType) w in
  (countByte colon ref = 0 -> fst run = Err (Errorf "reference without tag"))
  /\ (forall name tag e,
        ref = name +:+ String colon tag ->
        countByte colon tag = 0 ->
        reference_WithName name = Err e ->
        fst run = Err (Errorf "bad reference name")
        /\ registryTrace (snd run) = registryTrace w)
  /\ (forall name namedRef repository,
        ref = name +:+ String colon EmptyString ->
        reference_WithName name = Ok namedRef ->
        Namespace_Repository (registry fc) namedRef = Ok repository ->
        (exists rest,
            registryTrace (snd run)
            = registryTrace w
              ++ CallRepository namedRef :: CallTagsGet EmptyString :: rest)
        /\ (forall err,
              TagService_Get (Tags repository) EmptyString = Err err ->
              errors_As_ErrTagUnknown err = true ->
              fst run = Ok (StringTerm "")
              /\ errorSlot (snd run) = errorSlot w
              /\ Cancelled (snd run) = Cancelled w)).
Proof.
  intros Hctx run. subst run. split; [|split].
  - intros Hc. run_resolver. rewrite Hctx. simpl.
    rewrite (LastIndexByte_absent colon ref Hc). reflexivity.
  - intros name tag e -> Htag Hname. run_resolver. rewrite Hctx. simpl.
    rewrite (LastIndexByte_last colon name tag Htag), of_nat_ltb_0.
    rewrite slice_to_name, Hname. simpl. auto.
  - intros name namedRef repository -> Hname Hrepo.
    assert (Htag : countByte colon EmptyString = 0) by reflexivity.
    split.
    + to_tag_lookup Hctx Htag Hname Hrepo.
      repeat split_match; rewrite <- !app_assoc; simpl; eexists; reflexivity.
    + intros err Hget Has.
      to_tag_lookup Hctx Htag Hname Hrepo. rewrite Hget, Has.
      unfold errorSlot. simpl. rewrite Hctx. auto.
Qed.

End Resolver.

(** ** Reading into a pooled buffer *)

Lemma bufferSize_positive : 0 < bufferSize.
Proof. unfold bufferSize. lia. Qed.

(** [io.ReadAtLeast] of one byte either reports an error and no byte, or
    delivers between one and [c] bytes and no error. *)
Lemma stream_ReadAtLeast_outcome (c : nat) (s : stream) :
  0 < c ->
  (fst (fst (stream_ReadAtLeast c s)) = []
   /\ snd (fst (stream_ReadAtLeast c s)) <> None)
  \/ (fst (fst (stream_ReadAtLeast c s)) <> []
      /\ snd (fst (stream_ReadAtLeast c s)) = None
      /\ length (fst (fst (stream_ReadAtLeast c s))) <= c).
Proof.
  intros Hc. induction s as [|[data err] rest IH]; simpl.
  - left. split; [reflexivity | discriminate].
  - destruct data as [|x data]; simpl.
    + destruct err as [e|]; simpl; [|exact IH].
      left. split; [reflexivity | discriminate].
    + right. destruct c as [|c]; [lia|].
      destruct (length data <=? c)%nat eqn:Hlen; simpl.
      * apply Nat.leb_le in Hlen. repeat split; [discriminate | lia].
      * repeat split; [discriminate|]. rewrite length_take. lia.
Qed.

(** On a stream that reports no error before its end, the bytes staged
    by the read are taken off the front of what remains to be read. *)
Lemma stream_ReadAtLeast_consumes (c : nat) (s : stream) :
  Forall (fun ch => chunk_err ch = None) s ->
  fst (stream_ReadAll s)
  = fst (fst (stream_ReadAtLeast c s))
    ++ fst (stream_ReadAll (snd (stream_ReadAtLeast c s))).
Proof.
  intros Hclean. induction Hclean as [|[data err] rest Herr _ IH]; simpl;
    [reflexivity|].
  simpl in Herr. subst err.
  destruct (stream_ReadAll rest) as [more e] eqn:Hrest. simpl in IH.
  destruct data as [|x data]; simpl.
  - exact IH.
  - destruct c as [|c]; simpl.
    + rewrite Hrest. reflexivity.
    + destruct (length data <=? c)%nat; simpl; rewrite Hrest; simpl;
        [reflexivity|].
      rewrite app_comm_cons, app_assoc.
      change (x :: take c data) with (take (S c) (x :: data)).
      rewrite take_drop. reflexivity.
Qed.

(** The loop of [io.ReadAtLeast]: one [Read], repeated while it answers
    [0, nil]; a byte clears the error. *)
Lemma stream_ReadAtLeast_loop (c : nat) (s : stream) :
  0 < c ->
  stream_ReadAtLeast c s =
    match stream_Read c s with
    | ([], None, s') => stream_ReadAtLeast c s'
    | ([], Some err, s') => ([], Some err, s')
    | (data, _, s') => (data, None, s')
    end.
Proof.
  intros Hc. destruct s as [|[data err] rest]; simpl; [reflexivity|].
  destruct data as [|x data]; simpl.
  - destruct err; reflexivity.
  - destruct c as [|c]; [lia|].
    destruct (length data <=? c)%nat; reflexivity.
Qed.

(** The bytes just staged in a buffer are what a reader over its first
    [length data] bytes sees. *)
Lemma view_heap_write (b : bufid) (data : list byte) (h : gmap bufid (list byte))
    (i : nat) :
  view (heap_write b data h) (mkReader b (length data) i) = data.
Proof.
  unfold view, heap_write. simpl.
  rewrite lookup_total_insert_eq. apply take_app_length.
Qed.

(** What the next consumer reads from a replayable body installed over
    the bytes just staged. *)
Lemma bodyContent_of_replay (w : World) (b : bufid) (data : list byte)
    (h : gmap bufid (list byte)) :
  requestBody w
  = Some (replayBody (mkBufPoolCloser (mkReader b (length data) 0) b)) ->
  heap w = heap_write b data h ->
  bodyContent w = data.
Proof.
  intros Hreplay Hheap. unfold bodyContent. rewrite Hreplay, Hheap.
  cbn [ReadCloser_ReadAll Reader rd_i fst]. rewrite drop_0.
  apply view_heap_write.
Qed.

(** ** The request-body accessor *)

Section Accessor.

Variable ast_ValueFromReader : list byte -> result Value * nat.

Local Abbreviation requestBodyFn := (requestBodyBuiltin ast_ValueFromReader).

(** The accessor on a request that has a body, step by step: the buffer
    it acquires, the bytes it stages in it, and what it does with them. *)
Lemma accessor_with_body (Location : string) (w : World) (fc : funcContext)
    (rc : ReadCloser) :
  ctxValue w = Some fc ->
  Body (req fc) = Some rc ->
  hasBody (Some rc) = true ->
  let b := fst (poolNext w) in
  let read := ReadCloser_ReadAtLeast bufferSize (snd (poolNext w)) rc in
  let data := fst (fst read) in
  let run := requestBodyFn Location w in
  poolTrace (snd run) = poolTrace w ++ [PoolGet b]
  /\ heap (snd run) = heap_write b data (snd (poolNext w))
  /\ match snd (fst read) with
     | Some _ =>
         fst run = Err (Errorf "empty body request")
         /\ requestBody (snd run) = Some (snd read)
     | None =>
         match fst (ast_ValueFromReader data) with
         | Err err =>
             fst run = Err err /\ requestBody (snd run) = Some (snd read)
         | Ok v =>
             fst run = Ok (NewTerm v)
             /\ requestBody (snd run)
                = Some (replayBody
                          (mkBufPoolCloser (mkReader b (length data) 0) b))
         end
     end.
Proof.
  intros Hctx Hbody Hhas. unfold poolNext. run_accessor.
  repeat (rewrite ?Hctx, ?Hbody, ?Hhas; simpl).
  destruct (bufferPool w) as [|b pool] eqn:Hpool; simpl;
    repeat (rewrite ?Hctx, ?Hbody; simpl);
    match goal with
    | |- context [ReadCloser_ReadAtLeast ?c ?h rc] =>
        destruct (ReadCloser_ReadAtLeast c h rc) as [[data err] rc'] eqn:Hread
    end; simpl;
    (destruct err as [e|]; simpl; [auto|]);
    rewrite drop_0, view_heap_write;
    destruct (ast_ValueFromReader data) as [[v|e] taken]; simpl; auto.
Qed.

(** What the deferred closure leaves behind, for either outcome. *)
Lemma requestBody_outcome (Location : string) (w : World) (fc : funcContext) :
  ctxValue w = Some fc ->
  match fst (requestBodyFn Location w) with
  | Ok _ =>
      errorSlot (snd (requestBodyFn Location w)) = errorSlot w
      /\ Cancelled (snd (requestBodyFn Location w)) = Cancelled w
  | Err errFn =>
      errorSlot (snd (requestBodyFn Location w))
      = Some (Errorf_w (Location +:+ " builtin eval request.body error: ") errFn)
      /\ Cancelled (snd (requestBodyFn Location w)) = true
  end.
Proof.
  intros Hctx. run_accessor. unfold errorSlot.
  repeat (rewrite ?Hctx; simpl).
  destruct (Body (req fc)) as [rc|] eqn:Hbody; simpl;
    [destruct rc; simpl|]; rewrite ?Hctx; auto;
    (destruct (bufferPool w) as [|b pool] eqn:Hpool; simpl;
     repeat (rewrite ?Hctx, ?Hbody; simpl);
     match goal with
     | |- context [stream_ReadAtLeast ?c ?s] =>
         destruct (stream_ReadAtLeast c s) as [[data err] rc'] eqn:Hread
     | |- context [bytesReader_Read ?c ?h ?r] =>
         destruct (bytesReader_Read c h r) as [[data err] rc'] eqn:Hread
     end; simpl;
     (destruct err as [e|]; simpl; [auto|]);
     match goal with
     | |- context [ast_ValueFromReader ?bs] =>
         destruct (ast_ValueFromReader bs) as [[v|e] taken]; simpl; auto
     end).
Qed.


(** C8: on a request without a body (nil, or [http.NoBody]) the accessor
    returns the null value with no error and changes nothing; on a
    request whose body has no byte to give it fails with
    "empty body request" and the request keeps the body it had, no
    replayable body being made. *)
Theorem C8_no_body_is_null_empty_body_fails
    (Location : string) (w : World) (fc : funcContext) :
  ctxValue w = Some fc ->
  (Body (req fc) = None \/ Body (req fc) = Some http_NoBody ->
   requestBodyFn Location w = (Ok (NewTerm Null), w))
  /\ (forall rc,
        Body (req fc) = Some rc -> rc <> http_NoBody -> drained rc ->
        fst (requestBodyFn Location w) = Err (Errorf "empty body request")
        /\ (forall s, rc = transportBody s ->
            requestBody (snd (requestBodyFn Location w))
            = Some (transportBody (snd (stream_ReadAtLeast bufferSize s))))
        /\ (forall bpc, rc = replayBody bpc ->
            requestBody (snd (requestBodyFn Location w)) = Some rc)).
Proof.
  intros Hctx. split.
  - intros Hnone. run_accessor. rewrite Hctx. simpl. rewrite Hctx.
    destruct Hnone as [-> | ->]; reflexivity.
  - intros rc Hbody Hrc Hdrained.
    assert (Hhas : hasBody (Some rc) = true) by (destruct rc; [congruence | | ]; reflexivity).
    pose proof (accessor_with_body Location w fc rc Hctx Hbody Hhas) as Hrun.
    simpl in Hrun. destruct Hrun as (_ & _ & Hrun).
    destruct rc as [|s|bpc]; [congruence | |]; simpl in Hdrained, Hrun.
    + destruct (stream_ReadAtLeast_outcome bufferSize s bufferSize_positive)
        as [[_ Herr] | [Hdata _]]; [|congruence].
      destruct (stream_ReadAtLeast bufferSize s) as [[data err] s'] eqn:Hread.
      simpl in *. destruct err as [e|]; [|congruence].
      destruct Hrun as [Hfst Hbody']. split; [exact Hfst|].
      split; [|discriminate].
      intros s0 [= <-]. rewrite Hread. exact Hbody'.
    + unfold bytesReader_Read in Hrun.
      assert (Hlen : (length (view (snd (poolNext w)) (Reader bpc)) <=? rd_i (Reader bpc))%nat = true).
      { apply Nat.leb_le. unfold view. rewrite length_take. lia. }
      rewrite Hlen in Hrun. simpl in Hrun. destruct Hrun as [Hfst Hbody'].
      split; [exact Hfst|]. split; [discriminate|].
      intros bpc0 _. rewrite Hbody'. destruct bpc; reflexivity.
Qed.

(** C10: when the accessor fails on a request that has a body (no byte
    could be read, or the bytes read do not parse), the request keeps the
    body it had: the original stream, advanced past the bytes the read
    took, or the replayable body it already carried. No new replayable
    body is substituted. *)
Theorem C10_failure_leaves_body_in_place
    (Location : string) (w : World) (fc : funcContext) (rc : ReadCloser)
    (errFn : error) :
  ctxValue w = Some fc ->
  Body (req fc) = Some rc ->
  rc <> http_NoBody ->
  fst (requestBodyFn Location w) = Err errFn ->
  (forall s, rc = transportBody s ->
     requestBody (snd (requestBodyFn Location w))
     = Some (transportBody (snd (stream_ReadAtLeast bufferSize s))))
  /\ (forall bpc, rc = replayBody bpc ->
       exists r,
         requestBody (snd (requestBodyFn Location w))
         = Some (replayBody (mkBufPoolCloser r (buf bpc)))
         /\ rd_buf r = rd_buf (Reader bpc)
         /\ rd_len r = rd_len (Reader bpc)
         /\ rd_i (Reader bpc) <= rd_i r).
Proof.
  intros Hctx Hbody Hrc Hfail.
  assert (Hhas : hasBody (Some rc) = true)
    by (destruct rc; [congruence | | ]; reflexivity).
  pose proof (accessor_with_body Location w fc rc Hctx Hbody Hhas) as Hrun.
  simpl in Hrun. destruct Hrun as (_ & _ & Hrun).
  assert (Hkept : requestBody (snd (requestBodyFn Location w))
                  = Some (snd (ReadCloser_ReadAtLeast bufferSize (snd (poolNext w)) rc))).
  { destruct (snd (fst (ReadCloser_ReadAtLeast bufferSize (snd (poolNext w)) rc))).
    - apply Hrun.
    - destruct (fst (ast_ValueFromReader _)); [|apply Hrun].
      destruct Hrun as [Hok _]. congruence. }
  split.
  - intros s ->. rewrite Hkept. simpl.
    destruct (stream_ReadAtLeast bufferSize s) as [[data err] s']. reflexivity.
  - intros bpc ->. rewrite Hkept. simpl. unfold bytesReader_Read.
    destruct (length (view (snd (poolNext w)) (Reader bpc)) <=? rd_i (Reader bpc))%nat;
      simpl; eexists; (split; [reflexivity|]); simpl; repeat split; lia.
Qed.

(** C3: round trip. When the request carries a transport stream whose
    bytes are fully captured within one buffer-sized read and the
    accessor succeeds, the body the request carries afterwards reads,
    from its start, as the same non-empty bytes the stream held. *)
Theorem C3_body_round_trip
    (Location : string) (w : World) (fc : funcContext) (s : stream) (v : Term) :
  ctxValue w = Some fc ->
  Body (req fc) = Some (transportBody s) ->
  fullyCaptured s ->
  fst (requestBodyFn Location w) = Ok v ->
  bodyContent (snd (requestBodyFn Location w)) = fst (stream_ReadAll s)
  /\ bodyContent w = fst (stream_ReadAll s)
  /\ fst (stream_ReadAll s) <> [].
Proof.
  intros Hctx Hbody Hfull Hok.
  pose proof (accessor_with_body Location w fc (transportBody s) Hctx Hbody eq_refl)
    as Hrun.
  simpl in Hrun. destruct Hrun as (_ & Hheap & Hrun).
  unfold fullyCaptured in Hfull.
  destruct (stream_ReadAtLeast_outcome bufferSize s bufferSize_positive)
    as [[_ Herr] | (Hdata & Herr & _)].
  - destruct (stream_ReadAtLeast bufferSize s) as [[data err] s'].
    simpl in *. destruct err; [|congruence]. destruct Hrun as [Hrun _]. congruence.
  - destruct (stream_ReadAtLeast bufferSize s) as [[data err] s'].
    simpl in *. subst err.
    destruct (fst (ast_ValueFromReader data)) as [v'|e].
    + destruct Hrun as [_ Hreplay].
      split; [|split].
      * unfold bodyContent. rewrite Hreplay, Hheap. simpl.
        rewrite drop_0, view_heap_write. exact Hfull.
      * unfold bodyContent, requestBody. rewrite Hctx, Hbody. reflexivity.
      * rewrite <- Hfull. exact Hdata.
    + destruct Hrun as [Hrun _]. congruence.
Qed.


End Accessor.

(** ** The error protocol of both functions *)

Section Protocol.

Variable reference_WithName : string -> result Named.
Variable json_Unmarshal : list byte -> result Manifest.
Variable ast_ValueFromReader : list byte -> result Value * nat.

Local Abbreviation ociBlobDigest :=
  (ociBlobDigestBuiltin reference_WithName json_Unmarshal).
Local Abbreviation requestBodyFn := (requestBodyBuiltin ast_ValueFromReader).

(** With no context attached, either function cancels and fails with
    "bad context"; there is no slot to record the error in. *)
Lemma missing_context (Location : string) (a b : Term) (w : World) :
  ctxValue w = None ->
  (fst (ociBlobDigest Location a b w) = Err (Errorf "bad context")
   /\ Cancelled (snd (ociBlobDigest Location a b w)) = true
   /\ errorSlot (snd (ociBlobDigest Location a b w)) = None)
  /\ (fst (requestBodyFn Location w) = Err (Errorf "bad context")
      /\ Cancelled (snd (requestBodyFn Location w)) = true
      /\ errorSlot (snd (requestBodyFn Location w)) = None).
Proof.
  intros Hctx.
  unfold ociBlobDigestBuiltin, requestBodyBuiltin, bind, gets, bctx_Cancel,
    modify, fail, errorSlot.
  simpl. rewrite Hctx. simpl. rewrite Hctx. auto.
Qed.

(** C2 (as the code has it): with the evaluation context attached, every
    error either function returns is stored, wrapped with the location
    and the function's name, in the shared error slot, and the evaluation
    is cancelled. With no context attached the function cancels and fails
    with "bad context", and no error is recorded: the slot lives in the
    missing context. *)
Theorem C2_fatal_errors_recorded_and_cancelled
    (Location : string) (a b : Term) (w : World) :
  match ctxValue w with
  | Some _ =>
      (forall errFn,
          fst (ociBlobDigest Location a b w) = Err errFn ->
          errorSlot (snd (ociBlobDigest Location a b w))
          = Some (Errorf_w (Location +:+ " builtin eval oci.blob_digest error: ") errFn)
          /\ Cancelled (snd (ociBlobDigest Location a b w)) = true)
      /\ (forall errFn,
            fst (requestBodyFn Location w) = Err errFn ->
            errorSlot (snd (requestBodyFn Location w))
            = Some (Errorf_w (Location +:+ " builtin eval request.body error: ") errFn)
            /\ Cancelled (snd (requestBodyFn Location w)) = true)
  | None =>
      (fst (ociBlobDigest Location a b w) = Err (Errorf "bad context")
       /\ Cancelled (snd (ociBlobDigest Location a b w)) = true
       /\ errorSlot (snd (ociBlobDigest Location a b w)) = None)
      /\ (fst (requestBodyFn Location w) = Err (Errorf "bad context")
          /\ Cancelled (snd (requestBodyFn Location w)) = true
          /\ errorSlot (snd (requestBodyFn Location w)) = None)
  end.
Proof.
  destruct (ctxValue w) as [fc|] eqn:Hctx.
  - split; intros errFn Hfail.
    + pose proof (ociBlobDigest_outcome reference_WithName json_Unmarshal
                    Location a b w fc Hctx) as H.
      rewrite Hfail in H. exact H.
    + pose proof (requestBody_outcome ast_ValueFromReader Location w fc Hctx) as H.
      rewrite Hfail in H. exact H.
  - apply missing_context. exact Hctx.
Qed.

End Protocol.

(** ** Reachable worlds *)

Section Reachable.

Variable ast_ValueFromReader : list byte -> result Value * nat.

Local Abbreviation requestBodyFn := (requestBodyBuiltin ast_ValueFromReader).

(** One read never stages more than the destination holds. *)
Lemma ReadCloser_ReadAtLeast_length (h : gmap bufid (list byte)) (rc : ReadCloser) :
  length (fst (fst (ReadCloser_ReadAtLeast bufferSize h rc))) <= bufferSize.
Proof.
  destruct rc as [|s|bpc]; simpl.
  - lia.
  - destruct (stream_ReadAtLeast_outcome bufferSize s bufferSize_positive)
      as [[Hnil _] | (_ & _ & Hlen)];
      destruct (stream_ReadAtLeast bufferSize s) as [[data err] s']; simpl in *.
    + subst data. simpl. lia.
    + exact Hlen.
  - unfold bytesReader_Read.
    destruct (length (view h (Reader bpc)) <=? rd_i (Reader bpc))%nat; simpl.
    + lia.
    + rewrite length_take. lia.
Qed.

(** What the accessor does to the pool and to the allocation counter on
    a request that has a body. *)
Lemma accessor_allocation (Location : string) (w : World) (fc : funcContext)
    (rc : ReadCloser) :
  ctxValue w = Some fc ->
  Body (req fc) = Some rc ->
  hasBody (Some rc) = true ->
  bufferPool (snd (requestBodyFn Location w)) = tail (bufferPool w)
  /\ nextBuf (snd (requestBodyFn Location w))
     = match bufferPool w with
       | [] => S (nextBuf w)
       | _ :: _ => nextBuf w
       end.
Proof.
  intros Hctx Hbody Hhas. run_accessor.
  repeat (rewrite ?Hctx, ?Hbody, ?Hhas; simpl).
  destruct (bufferPool w) as [|b pool] eqn:Hpool; simpl;
    repeat (rewrite ?Hctx, ?Hbody; simpl);
    match goal with
    | |- context [ReadCloser_ReadAtLeast ?c ?h rc] =>
        destruct (ReadCloser_ReadAtLeast c h rc) as [[data err] rc'] eqn:Hread
    end; simpl;
    (destruct err as [e|]; simpl; [auto|]);
    match goal with
    | |- context [ast_ValueFromReader ?bs] =>
        destruct (ast_ValueFromReader bs) as [[v|e] taken]; simpl; auto
    end.
Qed.

(** On a request without a body, or without a context, the accessor
    leaves pool, heap and body as they are. *)
Lemma accessor_without_body (Location : string) (w : World) :
  hasBody (requestBody w) = false ->
  heap (snd (requestBodyFn Location w)) = heap w
  /\ bufferPool (snd (requestBodyFn Location w)) = bufferPool w
  /\ nextBuf (snd (requestBodyFn Location w)) = nextBuf w
  /\ requestBody (snd (requestBodyFn Location w)) = requestBody w.
Proof.
  unfold requestBody at 1. intros Hnone. run_accessor.
  destruct (ctxValue w) as [fc|] eqn:Hctx; simpl.
  - rewrite Hctx. rewrite Hnone. simpl. rewrite Hctx. auto.
  - rewrite Hctx. auto.
Qed.

(** The buffer the next [Get] hands out is allocated and sized, and the
    allocation it may need keeps every other buffer. *)
Lemma poolNext_spec (w : World) :
  wellFormed w ->
  (exists bs0, snd (poolNext w) !! fst (poolNext w) = Some bs0
               /\ length bs0 = bufferSize)
  /\ (forall b x, heap w !! b = Some x -> snd (poolNext w) !! b = Some x)
  /\ (forall b x, snd (poolNext w) !! b = Some x ->
        length x = bufferSize
        /\ b < match bufferPool w with
               | [] => S (nextBuf w)
               | _ :: _ => nextBuf w
               end).
Proof.
  intros [Hsized Hfresh Hpool _]. unfold poolNext.
  destruct (bufferPool w) as [|b0 pool]; simpl.
  - split; [|split].
    + exists newBufferBytes. rewrite lookup_insert_eq. split; [reflexivity|].
      unfold newBufferBytes. apply length_replicate.
    + intros b x Hb. rewrite lookup_insert_ne; [exact Hb|].
      assert (b < nextBuf w) by (apply Hfresh; eauto). lia.
    + intros b x Hb. apply lookup_insert_Some in Hb as [[<- <-] | [Hne Hb]].
      * split; [apply length_replicate | lia].
      * split; [eapply Hsized; exact Hb|].
        assert (b < nextBuf w) by (apply Hfresh; eauto). lia.
  - split; [|split].
    + destruct (Hpool b0) as [bs0 Hbs0]; [left|].
      exists bs0. split; [exact Hbs0 | eapply Hsized; exact Hbs0].
    + auto.
    + intros b x Hb. split; [eapply Hsized; exact Hb | apply Hfresh; eauto].
Qed.

(** The accessor keeps the world well formed. *)
Theorem accessor_wellFormed (Location : string) (w : World) :
  wellFormed w -> wellFormed (snd (requestBodyFn Location w)).
Proof.
  intros Hwf. destruct (hasBody (requestBody w)) eqn:Hhas.
  - unfold requestBody in Hhas.
    destruct (ctxValue w) as [fc|] eqn:Hctx; [|discriminate].
    destruct (Body (req fc)) as [rc|] eqn:Hbody; [|discriminate].
    destruct (accessor_with_body ast_ValueFromReader Location w fc rc Hctx Hbody Hhas)
      as (_ & Hheap & Hrun).
    destruct (accessor_allocation Location w fc rc Hctx Hbody Hhas) as [Hpool Hnext].
    destruct (poolNext_spec w Hwf) as ((bs0 & Hb0 & Hlen0) & Hkeep & Hall).
    pose proof (ReadCloser_ReadAtLeast_length (snd (poolNext w)) rc) as Hdata.
    assert (Hlookup : forall b x,
               heap (snd (requestBodyFn Location w)) !! b = Some x ->
               length x = bufferSize
               /\ b < nextBuf (snd (requestBodyFn Location w))).
    { intros b x Hb. rewrite Hheap in Hb. unfold heap_write in Hb.
      rewrite Hnext.
      apply lookup_insert_Some in Hb as [[<- <-] | [Hne Hb]].
      - split; [|eapply Hall; exact Hb0].
        rewrite (lookup_total_correct _ _ _ Hb0).
        rewrite length_app, length_drop. lia.
      - apply Hall. exact Hb. }
    assert (Hstay : forall b, is_Some (heap w !! b) ->
                              is_Some (heap (snd (requestBodyFn Location w)) !! b)).
    { intros b [x Hb]. rewrite Hheap. unfold heap_write.
      apply lookup_insert_is_Some'. right. exists x. apply Hkeep. exact Hb. }
    destruct Hwf as [Hsized Hfresh Hpoolwf Hbodywf].
    constructor.
    + intros b bs Hb. apply (Hlookup b bs Hb).
    + intros b [x Hb]. apply (Hlookup b x Hb).
    + intros b Hin. rewrite Hpool in Hin. apply Hstay, Hpoolwf.
      destruct (bufferPool w); [inversion Hin | right; exact Hin].
    + intros bpc Hreplay.
      assert (Hold : requestBody (snd (requestBodyFn Location w))
                     = Some (snd (ReadCloser_ReadAtLeast bufferSize (snd (poolNext w)) rc))
                     -> is_Some (heap (snd (requestBodyFn Location w)) !! buf bpc)
                        /\ rd_buf (Reader bpc) = buf bpc).
      { intros Hsame. rewrite Hsame in Hreplay.
        destruct rc as [|s|bpc0]; simpl in Hreplay.
        - discriminate.
        - destruct (stream_ReadAtLeast bufferSize s) as [[data err] s'].
          discriminate.
        - destruct (Hbodywf bpc0) as [Halloc Hsame0].
          { unfold requestBody. rewrite Hctx. exact Hbody. }
          unfold bytesReader_Read in Hreplay.
          destruct (length (view (snd (poolNext w)) (Reader bpc0))
                    <=? rd_i (Reader bpc0))%nat;
            simpl in Hreplay; injection Hreplay as <-; simpl;
            (split; [apply Hstay; exact Halloc | exact Hsame0]). }
      destruct (snd (fst (ReadCloser_ReadAtLeast bufferSize (snd (poolNext w)) rc))).
      * apply Hold, Hrun.
      * destruct (fst (ast_ValueFromReader _)) as [v|e]; [|apply Hold, Hrun].
        destruct Hrun as [_ Hnew]. rewrite Hnew in Hreplay.
        injection Hreplay as <-. simpl. split; [|reflexivity].
        rewrite Hheap. unfold heap_write. rewrite lookup_insert_eq. eauto.
  - destruct (accessor_without_body Location w Hhas) as (Hheap & Hpool & Hnext & Hbody).
    destruct Hwf as [Hsized Hfresh Hpoolwf Hbodywf].
    constructor; rewrite ?Hheap, ?Hpool, ?Hnext, ?Hbody; assumption.
Qed.

(** Closing the replayable body the request carries keeps the world well
    formed, however often it is closed. *)
Theorem Close_wellFormed (k : nat) (bpc : bufPoolCloser) (w : World) :
  wellFormed w ->
  requestBody w = Some (replayBody bpc) ->
  wellFormed (snd (Close_times k bpc w)).
Proof.
  revert w. induction k as [|k IH]; intros w Hwf Hbody; simpl; [exact Hwf|].
  unfold bind, Close, bufferPool_Put, modify. simpl.
  apply IH; [|exact Hbody].
  destruct Hwf as [Hsized Hfresh Hpoolwf Hbodywf].
  constructor; simpl; try assumption.
  intros b Hin. apply elem_of_cons in Hin as [-> | Hin].
  - apply (Hbodywf bpc Hbody).
  - apply Hpoolwf, Hin.
Qed.

(** Round trip once more: when the accessor runs again, the request
    carrying the replayable body of an earlier run (closed already or
    not, so that the buffer read from may be the one written to), the
    next consumer still reads the same bytes. *)
Theorem round_trip_on_replayed_body
    (Location : string) (w : World) (fc : funcContext) (bpc : bufPoolCloser)
    (v : Term) :
  wellFormed w ->
  ctxValue w = Some fc ->
  Body (req fc) = Some (replayBody bpc) ->
  fst (requestBodyFn Location w) = Ok v ->
  bodyContent (snd (requestBodyFn Location w)) = bodyContent w.
Proof.
  intros Hwf Hctx Hbody Hok.
  destruct (accessor_with_body ast_ValueFromReader Location w fc (replayBody bpc)
              Hctx Hbody eq_refl) as (_ & Hheap & Hrun).
  destruct (poolNext_spec w Hwf) as (_ & Hkeep & _).
  destruct (wf_body w Hwf bpc) as [[x Hx] Hsame].
  { unfold requestBody. rewrite Hctx. exact Hbody. }
  assert (Hview : view (snd (poolNext w)) (Reader bpc) = view (heap w) (Reader bpc)).
  { unfold view. rewrite Hsame.
    rewrite (lookup_total_correct _ _ _ Hx).
    rewrite (lookup_total_correct _ _ _ (Hkeep _ _ Hx)). reflexivity. }
  assert (Hshort : length (view (heap w) (Reader bpc)) <= bufferSize).
  { unfold view. rewrite Hsame, (lookup_total_correct _ _ _ Hx), length_take.
    rewrite (wf_sized w Hwf _ _ Hx). lia. }
  assert (Hbefore : bodyContent w
                    = drop (rd_i (Reader bpc)) (view (heap w) (Reader bpc))).
  { unfold bodyContent, requestBody. rewrite Hctx, Hbody. reflexivity. }
  destruct (length (view (heap w) (Reader bpc)) <=? rd_i (Reader bpc))%nat
    eqn:Hdrained.
  - assert (Hread : snd (fst (ReadCloser_ReadAtLeast bufferSize (snd (poolNext w))
                                 (replayBody bpc))) = Some EOF).
    { cbn [ReadCloser_ReadAtLeast]. unfold bytesReader_Read.
      rewrite Hview, Hdrained. reflexivity. }
    rewrite Hread in Hrun. destruct Hrun as [Hrun _]. congruence.
  - assert (Hread : fst (ReadCloser_ReadAtLeast bufferSize (snd (poolNext w))
                           (replayBody bpc))
                    = (drop (rd_i (Reader bpc)) (view (heap w) (Reader bpc)), None)).
    { cbn [ReadCloser_ReadAtLeast]. unfold bytesReader_Read.
      rewrite Hview, Hdrained. cbn [fst]. f_equal.
      apply take_ge. rewrite length_drop. lia. }
    rewrite Hread in Hheap, Hrun. cbn [fst snd] in Hheap, Hrun.
    destruct (fst (ast_ValueFromReader _)) as [v'|e].
    + destruct Hrun as [_ Hreplay].
      rewrite Hbefore. exact (bodyContent_of_replay _ _ _ _ Hreplay Hheap).
    + destruct Hrun as [Hrun _]. congruence.
Qed.

(** A world with nothing allocated yet and no replayable body is well
    formed. *)
Lemma wellFormed_initial (w : World) :
  heap w = ∅ ->
  bufferPool w = [] ->
  (forall bpc, requestBody w <> Some (replayBody bpc)) ->
  wellFormed w.
Proof.
  intros Hheap Hpool Hbody. constructor.
  - intros b bs Hb. rewrite Hheap, lookup_empty in Hb. discriminate.
  - intros b [x Hb]. rewrite Hheap, lookup_empty in Hb. discriminate.
  - intros b Hin. rewrite Hpool in Hin. inversion Hin.
  - intros bpc Hreplay. destruct (Hbody bpc Hreplay).
Qed.

End Reachable.

(** * The properties on the sample collaborators *)

(** C7 at the reference [repo], which has no colon. *)
Lemma C7_witness :
  ctxValue (Sample.world None)
  = Some (mkFuncContext (mkRequest None) Sample.registry None)
  /\ countByte colon "repo" = 0
  /\ fst (Sample.oci_blob_digest "policy.rego:3" (StringTerm "repo")
            (StringTerm "application/rpm") (Sample.world None))
     = Err (Errorf "reference without tag")
  /\ registryTrace
       (snd (Sample.oci_blob_digest "policy.rego:3" (StringTerm "repo")
               (StringTerm "application/rpm") (Sample.world None)))
     = [].
Proof.
  split; [reflexivity|]. split; [reflexivity|].
  exact (C7_no_colon_fails_before_registry Sample.WithName Sample.Unmarshal
           "policy.rego:3" "repo" "application/rpm" (Sample.world None)
           (mkFuncContext (mkRequest None) Sample.registry None)
           eq_refl eq_refl).
Defined.

(** C4 at [localhost:5000/repo:latest]: the colon of the port stays in
    the name. *)
Lemma C4_witness :
  1 < countByte colon "localhost:5000/repo:latest"
  /\ exists name tag : string,
      "localhost:5000/repo:latest" = name +:+ String colon tag
      /\ countByte colon tag = 0
      /\ 0 < countByte colon name
      /\ (forall e, Sample.WithName name = Err e ->
          fst (Sample.oci_blob_digest "policy.rego:3"
                 (StringTerm "localhost:5000/repo:latest")
                 (StringTerm "application/rpm") (Sample.world None))
          = Err (Errorf "bad reference name"))
      /\ (forall namedRef repository,
          Sample.WithName name = Ok namedRef ->
          Namespace_Repository Sample.registry namedRef = Ok repository ->
          exists rest,
            registryTrace
              (snd (Sample.oci_blob_digest "policy.rego:3"
                      (StringTerm "localhost:5000/repo:latest")
                      (StringTerm "application/rpm") (Sample.world None)))
            = [] ++ CallRepository namedRef :: CallTagsGet tag :: rest).
Proof.
  split; [vm_compute; lia|].
  apply (C4_split_at_last_colon Sample.WithName Sample.Unmarshal
           "policy.rego:3" "localhost:5000/repo:latest" "application/rpm"
           (Sample.world None)
           (mkFuncContext (mkRequest None) Sample.registry None)
           eq_refl).
  vm_compute. lia.
Defined.

(** C5 at [repo:nope], whose lookup reports an unknown tag, and at
    [repo:broken], whose lookup fails otherwise. *)
Lemma C5_witness :
  (TagService_Get (Tags Sample.repo) "nope" = Err (ErrTagUnknown "nope")
   /\ fst (Sample.oci_blob_digest "policy.rego:3" (StringTerm "repo:nope")
             (StringTerm "application/rpm") (Sample.world None))
      = Ok (StringTerm "")
   /\ errorSlot
        (snd (Sample.oci_blob_digest "policy.rego:3" (StringTerm "repo:nope")
                (StringTerm "application/rpm") (Sample.world None)))
      = None
   /\ Cancelled
        (snd (Sample.oci_blob_digest "policy.rego:3" (StringTerm "repo:nope")
                (StringTerm "application/rpm") (Sample.world None)))
      = false)
  /\ (TagService_Get (Tags Sample.repo) "broken" = Err (errorString "backend down")
      /\ fst (Sample.oci_blob_digest "policy.rego:3" (StringTerm "repo:broken")
                (StringTerm "application/rpm") (Sample.world None))
         = Err (Errorf_w "while getting tag broken: " (errorString "backend down"))
      /\ errorSlot
           (snd (Sample.oci_blob_digest "policy.rego:3" (StringTerm "repo:broken")
                   (StringTerm "application/rpm") (Sample.world None)))
         = Some (Errorf_w "policy.rego:3 builtin eval oci.blob_digest error: "
                   (Errorf_w "while getting tag broken: "
                      (errorString "backend down")))
      /\ Cancelled
           (snd (Sample.oci_blob_digest "policy.rego:3" (StringTerm "repo:broken")
                   (StringTerm "application/rpm") (Sample.world None)))
         = true).
Proof.
  split; (split; [reflexivity|]).
  - exact (proj1
             (C5_unknown_tag_is_empty_success Sample.WithName Sample.Unmarshal
                "policy.rego:3" "repo" "nope" "application/rpm" (Sample.world None)
                (mkFuncContext (mkRequest None) Sample.registry None)
                (mkNamed "repo") Sample.repo (ErrTagUnknown "nope")
                eq_refl eq_refl eq_refl eq_refl eq_refl)
             [] "nope" eq_refl).
  - refine (proj2
              (C5_unknown_tag_is_empty_success Sample.WithName Sample.Unmarshal
                 "policy.rego:3" "repo" "broken" "application/rpm" (Sample.world None)
                 (mkFuncContext (mkRequest None) Sample.registry None)
                 (mkNamed "repo") Sample.repo (errorString "backend down")
                 eq_refl eq_refl eq_refl eq_refl eq_refl)
              _).
    intros [|msg msgs] unknown; discriminate.
Defined.

(** C6 at [repo:latest]: of the two [application/rpm] layers of the
    sample manifest the first one, [bb], is returned. *)
Lemma C6_witness :
  Layers Sample.manifest
  = [Sample.layer "application/tar" "aa"] ++
    Sample.layer "application/rpm" "bb" :: [Sample.layer "application/rpm" "cc"]
  /\ fst (Sample.oci_blob_digest "policy.rego:3" (StringTerm "repo:latest")
            (StringTerm "application/rpm") (Sample.world None))
     = Ok (StringTerm "bb").
Proof.
  split; [reflexivity|].
  refine (proj1 (C6_first_matching_layer Sample.WithName Sample.Unmarshal
           "policy.rego:3" "repo" "latest" "application/rpm" (Sample.world None)
           (mkFuncContext (mkRequest None) Sample.registry None)
           (mkNamed "repo") Sample.repo "sha256:m1" Sample.manifests
           {| Payload := Ok ("application/vnd.oci.image.manifest.v1+json",
                             Sample.bytes "manifest") |}
           ("application/vnd.oci.image.manifest.v1+json", Sample.bytes "manifest")
           Sample.manifest
           eq_refl eq_refl eq_refl eq_refl eq_refl eq_refl eq_refl eq_refl eq_refl)
           [Sample.layer "application/tar" "aa"]
           (Sample.layer "application/rpm" "bb")
           [Sample.layer "application/rpm" "cc"] eq_refl _ eq_refl).
  constructor; [discriminate | constructor].
Defined.

(** C9 at [repo:]: the empty tag is looked up. *)
Lemma C9_witness :
  Sample.WithName "repo" = Ok (mkNamed "repo")
  /\ exists rest,
      registryTrace
        (snd (Sample.oci_blob_digest "policy.rego:3" (StringTerm "repo:")
                (StringTerm "application/rpm") (Sample.world None)))
      = [] ++ CallRepository (mkNamed "repo") :: CallTagsGet "" :: rest.
Proof.
  split; [reflexivity|].
  exact (proj1 (proj2 (proj2 (C9_empty_tag_is_looked_up
                  Sample.WithName Sample.Unmarshal
                  "policy.rego:3" "repo:" "application/rpm" (Sample.world None)
                  (mkFuncContext (mkRequest None) Sample.registry None)
                  eq_refl))
           "repo" (mkNamed "repo") Sample.repo eq_refl eq_refl eq_refl)).
Defined.

(** C9 as the specification states it does not hold on [repo:]: the resolver does not fail at
    parsing; it asks the registry for the tag [""] and, that tag being
    unknown, returns the empty string with nothing recorded. *)
Lemma C9_counterexample :
  fst (Sample.oci_blob_digest "policy.rego:3" (StringTerm "repo:")
         (StringTerm "application/rpm") (Sample.world None))
  = Ok (StringTerm "")
  /\ registryTrace
       (snd (Sample.oci_blob_digest "policy.rego:3" (StringTerm "repo:")
               (StringTerm "application/rpm") (Sample.world None)))
     = [CallRepository (mkNamed "repo"); CallTagsGet ""]
  /\ errorSlot
       (snd (Sample.oci_blob_digest "policy.rego:3" (StringTerm "repo:")
               (StringTerm "application/rpm") (Sample.world None)))
     = None
  /\ Cancelled
       (snd (Sample.oci_blob_digest "policy.rego:3" (StringTerm "repo:")
               (StringTerm "application/rpm") (Sample.world None)))
     = false.
Proof. vm_compute. repeat split. Qed.

(** C2 at the reference [repo], which has no colon: the parse error is
    in the slot and the evaluation is cancelled. *)
Lemma C2_witness :
  errorSlot
    (snd (Sample.oci_blob_digest "policy.rego:3" (StringTerm "repo")
            (StringTerm "application/rpm") (Sample.world None)))
  = Some (Errorf_w "policy.rego:3 builtin eval oci.blob_digest error: "
            (Errorf "reference without tag"))
  /\ Cancelled
       (snd (Sample.oci_blob_digest "policy.rego:3" (StringTerm "repo")
               (StringTerm "application/rpm") (Sample.world None)))
     = true.
Proof.
  exact (proj1 (C2_fatal_errors_recorded_and_cancelled
                  Sample.WithName Sample.Unmarshal Sample.ValueFromReader
                  "policy.rego:3" (StringTerm "repo") (StringTerm "application/rpm")
                  (Sample.world None))
           (Errorf "reference without tag") eq_refl).
Defined.

(** C2 as the specification states it does not hold when no context is
    attached: both functions
    fail with "bad context" and cancel, and the error slot stays empty. *)
Lemma C2_counterexample :
  (fst (Sample.oci_blob_digest "policy.rego:3" (StringTerm "repo:latest")
          (StringTerm "application/rpm") Sample.world_without_context)
   = Err (Errorf "bad context")
   /\ errorSlot
        (snd (Sample.oci_blob_digest "policy.rego:3" (StringTerm "repo:latest")
                (StringTerm "application/rpm") Sample.world_without_context))
      = None)
  /\ (fst (Sample.request_body "policy.rego:3" Sample.world_without_context)
      = Err (Errorf "bad context")
      /\ errorSlot
           (snd (Sample.request_body "policy.rego:3" Sample.world_without_context))
         = None).
Proof. vm_compute. repeat split. Qed.

(** C8 on a request whose stream is at its end. *)
Lemma C8_witness :
  drained (transportBody [])
  /\ fst (Sample.request_body "policy.rego:3"
            (Sample.world (Some (transportBody []))))
     = Err (Errorf "empty body request")
  /\ requestBody
       (snd (Sample.request_body "policy.rego:3"
               (Sample.world (Some (transportBody [])))))
     = Some (transportBody []).
Proof.
  split; [reflexivity|].
  destruct (proj2 (C8_no_body_is_null_empty_body_fails Sample.ValueFromReader
                     "policy.rego:3" (Sample.world (Some (transportBody [])))
                     (mkFuncContext (mkRequest (Some (transportBody [])))
                        Sample.registry None)
                     eq_refl)
              (transportBody []) eq_refl ltac:(discriminate) eq_refl)
    as (Hfail & Hstream & _).
  split; [exact Hfail | exact (Hstream [] eq_refl)].
Defined.

(** C10 on a body that arrives in two reads, [tr] then [ue]: the first
    read stages [tr], which does not parse; the request keeps its
    stream, with [ue] still to come. *)
Lemma C10_witness :
  fst (Sample.request_body "policy.rego:3"
         (Sample.world
            (Some (transportBody [mkChunk (Sample.bytes "tr") None;
                                  mkChunk (Sample.bytes "ue") None]))))
  = Err (errorString "invalid character")
  /\ requestBody
       (snd (Sample.request_body "policy.rego:3"
               (Sample.world
                  (Some (transportBody [mkChunk (Sample.bytes "tr") None;
                                        mkChunk (Sample.bytes "ue") None])))))
     = Some (transportBody [mkChunk (Sample.bytes "ue") None]).
Proof.
  split; [vm_compute; reflexivity|].
  exact (proj1 (C10_failure_leaves_body_in_place Sample.ValueFromReader
                  "policy.rego:3"
                  (Sample.world
                     (Some (transportBody [mkChunk (Sample.bytes "tr") None;
                                           mkChunk (Sample.bytes "ue") None])))
                  (mkFuncContext
                     (mkRequest
                        (Some (transportBody [mkChunk (Sample.bytes "tr") None;
                                              mkChunk (Sample.bytes "ue") None])))
                     Sample.registry None)
                  (transportBody [mkChunk (Sample.bytes "tr") None;
                                  mkChunk (Sample.bytes "ue") None])
                  (errorString "invalid character")
                  eq_refl eq_refl ltac:(discriminate)
                  ltac:(vm_compute; reflexivity))
           [mkChunk (Sample.bytes "tr") None; mkChunk (Sample.bytes "ue") None]
           eq_refl).
Defined.

(** C3 on a body [true] that arrives in one read. *)
Lemma C3_witness :
  fullyCaptured [mkChunk (Sample.bytes "true") None]
  /\ bodyContent
       (snd (Sample.request_body "policy.rego:3"
               (Sample.world
                  (Some (transportBody [mkChunk (Sample.bytes "true") None])))))
     = Sample.bytes "true".
Proof.
  split; [reflexivity|].
  exact (proj1 (C3_body_round_trip Sample.ValueFromReader "policy.rego:3"
                  (Sample.world
                     (Some (transportBody [mkChunk (Sample.bytes "true") None])))
                  (mkFuncContext
                     (mkRequest
                        (Some (transportBody [mkChunk (Sample.bytes "true") None])))
                     Sample.registry None)
                  [mkChunk (Sample.bytes "true") None]
                  (NewTerm (Boolean true))
                  eq_refl eq_refl eq_refl ltac:(vm_compute; reflexivity))).
Defined.



(** The boundary of the round trip: a body [true!!] that arrives as
    [true] and then [!!]. The accessor stages and parses the first read
    only; the replayable body it installs holds [true], and the bytes
    [!!] stay behind in the stream the request no longer points to. *)
Example round_trip_boundary :
  let s := [mkChunk (Sample.bytes "true") None; mkChunk (Sample.bytes "!!") None] in
  let run := Sample.request_body "policy.rego:3" (Sample.world (Some (transportBody s))) in
  fst run = Ok (NewTerm (Boolean true))
  /\ fst (stream_ReadAll s) = Sample.bytes "true!!"
  /\ bodyContent (snd run) = Sample.bytes "true".
Proof. vm_compute. repeat split. Qed.

(** Two calls in one evaluation: the second reads the replayable body of
    the first into a second buffer and installs a new replayable body
    over it; the first buffer is put back by nobody. *)
Example second_call :
  let w0 := Sample.world (Some (transportBody [mkChunk (Sample.bytes "true") None])) in
  let w1 := snd (Sample.request_body "policy.rego:3" w0) in
  let run := Sample.request_body "policy.rego:7" w1 in
  fst run = Ok (NewTerm (Boolean true))
  /\ bodyContent (snd run) = Sample.bytes "true"
  /\ requestBody (snd run)
     = Some (replayBody (mkBufPoolCloser (mkReader 1 4 0) 1))
  /\ poolTrace (snd run) = [PoolGet 0; PoolGet 1].
Proof. vm_compute. repeat split. Qed.

(** * Further properties of the code *)

(** ** The event schema *)

Section EventSchema.

Variable UnsafeEnabled : bool.
Variable CompressGZIP : list byte -> list byte.
Variable FileDescriptor : Type.
Variable Build : eventv1.TypeBuilder -> FileDescriptor.

Local Abbreviation Package := (eventv1.Package FileDescriptor).
Local Abbreviation run_calls :=
  (eventv1.calls UnsafeEnabled CompressGZIP Build).
Local Abbreviation raw := eventv1.file_event_v1_event_proto_rawDesc.

(** [Action_name] and [Action_value] are inverse of each other, and the
    numbers they name are exactly 0 to 4. *)
Theorem Action_maps_inverse (n : Z) (s : string) :
  (eventv1.Action_name !! n = Some s <-> eventv1.Action_value !! s = Some n)
  /\ (is_Some (eventv1.Action_name !! n) <-> (0 <= n <= 4)%Z).
Proof.
  unfold eventv1.Action_name, eventv1.Action_value.
  assert (Hnames : NoDup [0; 1; 2; 3; 4]%Z)
    by (apply (bool_decide_unpack _); vm_compute; exact I).
  assert (Hvalues : NoDup ["ACTION_UNSPECIFIED"; "ACTION_PUT"; "ACTION_DELETE";
                           "ACTION_START"; "ACTION_STOP"])
    by (apply (bool_decide_unpack _); vm_compute; exact I).
  split; [split|split].
  - intros H. apply elem_of_list_to_map in H; [|exact Hnames].
    apply elem_of_list_to_map; [exact Hvalues|].
    rewrite !elem_of_cons, elem_of_nil in H.
    rewrite !elem_of_cons, elem_of_nil.
    repeat (destruct H as [H|H]); try contradiction;
      injection H as -> ->; auto 10.
  - intros H. apply elem_of_list_to_map in H; [|exact Hvalues].
    apply elem_of_list_to_map; [exact Hnames|].
    rewrite !elem_of_cons, elem_of_nil in H.
    rewrite !elem_of_cons, elem_of_nil.
    repeat (destruct H as [H|H]); try contradiction;
      injection H as -> ->; auto 10.
  - intros [x H]. apply elem_of_list_to_map in H; [|exact Hnames].
    rewrite !elem_of_cons, elem_of_nil in H.
    repeat (destruct H as [H|H]); try contradiction;
      injection H as -> ->; lia.
  - intros Hn.
    assert (n = 0 \/ n = 1 \/ n = 2 \/ n = 3 \/ n = 4)%Z as Hcases by lia.
    destruct Hcases as [-> | [-> | [-> | [-> | ->]]]]; eexists; reflexivity.
Qed.

(** [Reset] leaves a message on which every getter answers as on a nil
    message, whatever it held; its message info is cached when
    [UnsafeEnabled], so that [ProtoReflect] then changes nothing. *)
Theorem Reset_clears_every_field (x : eventv1.EventPayload) :
  let r := eventv1.Reset UnsafeEnabled x in
  eventv1.GetRepository (Some r) = eventv1.GetRepository None
  /\ eventv1.GetDigest (Some r) = eventv1.GetDigest None
  /\ eventv1.GetMediatype (Some r) = eventv1.GetMediatype None
  /\ eventv1.GetPayload (Some r) = eventv1.GetPayload None
  /\ eventv1.GetAction (Some r) = eventv1.GetAction None
  /\ eventv1.unknownFields r = None
  /\ eventv1.sizeCache r = 0%Z
  /\ eventv1.state r = (if UnsafeEnabled then Some 0 else None)
  /\ snd (eventv1.ProtoReflect UnsafeEnabled (Some r)) = Some r.
Proof.
  unfold eventv1.Reset, eventv1.ProtoReflect.
  destruct UnsafeEnabled; simpl; repeat split.
Qed.

(** [ProtoReflect] changes nothing a getter reads; it caches the message
    info at most once, a second call changing nothing; and on a nil
    message it stores nothing. *)
Theorem ProtoReflect_caches_once (x : option eventv1.EventPayload) :
  let x' := snd (eventv1.ProtoReflect UnsafeEnabled x) in
  eventv1.GetRepository x' = eventv1.GetRepository x
  /\ eventv1.GetDigest x' = eventv1.GetDigest x
  /\ eventv1.GetMediatype x' = eventv1.GetMediatype x
  /\ eventv1.GetPayload x' = eventv1.GetPayload x
  /\ eventv1.GetAction x' = eventv1.GetAction x
  /\ eventv1.ProtoReflect UnsafeEnabled x'
     = (fst (eventv1.ProtoReflect UnsafeEnabled x), x')
  /\ (x = None <-> x' = None).
Proof.
  unfold eventv1.ProtoReflect.
  destruct x as [x|]; simpl; [|repeat split].
  destruct UnsafeEnabled; simpl; [|repeat split; discriminate].
  destruct (eventv1.state x) eqn:Hstate; simpl; rewrite ?Hstate;
    repeat split; discriminate.
Qed.

Arguments eventv1.file_event_v1_event_proto_rawDescGZIP : simpl never.
Arguments eventv1.file_event_v1_event_proto_init : simpl never.

(** One compression step: what it answers with and what it leaves. *)
Lemma rawDescGZIP_step (p : Package) :
  (eventv1.rawDescOnce p = false /\ eventv1.rawDescData p = raw)
  \/ (eventv1.rawDescOnce p = true /\ eventv1.rawDescData p = CompressGZIP raw) ->
  fst (eventv1.file_event_v1_event_proto_rawDescGZIP CompressGZIP p)
  = CompressGZIP raw
  /\ eventv1.rawDescOnce
       (snd (eventv1.file_event_v1_event_proto_rawDescGZIP CompressGZIP p)) = true
  /\ eventv1.rawDescData
       (snd (eventv1.file_event_v1_event_proto_rawDescGZIP CompressGZIP p))
     = CompressGZIP raw.
Proof.
  unfold eventv1.file_event_v1_event_proto_rawDescGZIP.
  intros [[Honce Hdata] | [Honce Hdata]]; rewrite Honce; simpl;
    rewrite ?Hdata; auto.
Qed.

(** Neither compression nor [init] touches what the other works on. *)
Lemma rawDescGZIP_frame (p : Package) :
  let p' := snd (eventv1.file_event_v1_event_proto_rawDescGZIP CompressGZIP p) in
  eventv1.File_event_v1_event_proto p' = eventv1.File_event_v1_event_proto p
  /\ eventv1.rawDesc p' = eventv1.rawDesc p
  /\ eventv1.goTypes p' = eventv1.goTypes p
  /\ eventv1.depIdxs p' = eventv1.depIdxs p
  /\ eventv1.builds p' = eventv1.builds p.
Proof.
  unfold eventv1.file_event_v1_event_proto_rawDescGZIP.
  destruct (eventv1.rawDescOnce p); simpl; auto.
Qed.

Lemma init_frame (p : Package) :
  let p' := eventv1.file_event_v1_event_proto_init UnsafeEnabled Build p in
  eventv1.rawDescOnce p' = eventv1.rawDescOnce p
  /\ eventv1.rawDescData p' = eventv1.rawDescData p.
Proof.
  unfold eventv1.file_event_v1_event_proto_init.
  destruct (eventv1.File_event_v1_event_proto p); simpl; auto.
Qed.

(** The descriptor bytes a run of calls answers with, one call at a
    time. *)
Lemma calls_cons (c : eventv1.call) (cs : list eventv1.call) (p : Package) :
  run_calls (c :: cs) p =
  match c with
  | eventv1.call_init =>
      run_calls cs (eventv1.file_event_v1_event_proto_init UnsafeEnabled Build p)
  | _ =>
      (fst (eventv1.file_event_v1_event_proto_rawDescGZIP CompressGZIP p)
         :: fst (run_calls cs
                   (snd (eventv1.file_event_v1_event_proto_rawDescGZIP CompressGZIP p))),
       snd (run_calls cs
              (snd (eventv1.file_event_v1_event_proto_rawDescGZIP CompressGZIP p))))
  end.
Proof.
  destruct c; [reflexivity| | |];
    cbn [eventv1.calls]; unfold eventv1.EnumDescriptor, eventv1.Descriptor;
    destruct (eventv1.file_event_v1_event_proto_rawDescGZIP CompressGZIP p)
      as [b p']; cbn [fst snd];
    destruct (run_calls cs p') as [bs p'']; reflexivity.
Qed.

(** The compression invariant of the package: not compressed yet and
    holding the descriptor, or compressed once. *)
Lemma calls_compress_once (cs : list eventv1.call) (p : Package) :
  (eventv1.rawDescOnce p = false /\ eventv1.rawDescData p = raw)
  \/ (eventv1.rawDescOnce p = true /\ eventv1.rawDescData p = CompressGZIP raw) ->
  Forall (fun b => b = CompressGZIP raw) (fst (run_calls cs p)).
Proof.
  revert p. induction cs as [|c cs IH]; intros p Hp; [constructor|].
  rewrite calls_cons.
  destruct (rawDescGZIP_step p Hp) as (Hb & Honce & Hdata).
  destruct (init_frame p) as [Honce' Hdata'].
  destruct c; cbn [fst snd];
    [apply IH; rewrite Honce', Hdata'; exact Hp | | |];
    (constructor; [exact Hb | apply IH; right; split; assumption]).
Qed.

(** Whatever calls a program makes on the package, in whatever order,
    [rawDescGZIP], [EnumDescriptor] and [Descriptor] always answer with
    the descriptor compressed exactly once: never the plain bytes, never
    a compression of the compressed bytes, and the same after [init] has
    set the descriptor variable to nil. *)
Theorem rawDescGZIP_compresses_once (cs : list eventv1.call) :
  Forall (fun b => b = CompressGZIP eventv1.file_event_v1_event_proto_rawDesc)
    (fst (run_calls cs (eventv1.initialPackage FileDescriptor))).
Proof. apply calls_compress_once. left. split; reflexivity. Qed.

Lemma built_stays (cs : list eventv1.call) (p : Package) :
  eventv1.built Build p ->
  eventv1.built Build (snd (run_calls cs p)).
Proof.
  revert p. induction cs as [|c cs IH]; intros p Hp; [exact Hp|].
  rewrite calls_cons.
  destruct (rawDescGZIP_frame p) as (HF & Hraw & Hgo & Hdep & Hbuilds).
  destruct c; cbn [fst snd]; apply IH.
  - unfold eventv1.file_event_v1_event_proto_init.
    destruct Hp as (HFp & Hp). rewrite HFp. split; assumption.
  - unfold eventv1.built. rewrite HF, Hraw, Hgo, Hdep, Hbuilds. exact Hp.
  - unfold eventv1.built. rewrite HF, Hraw, Hgo, Hdep, Hbuilds. exact Hp.
  - unfold eventv1.built. rewrite HF, Hraw, Hgo, Hdep, Hbuilds. exact Hp.
Qed.

Lemma unbuilt_until_init (cs : list eventv1.call) (p : Package) :
  eventv1.unbuilt p ->
  (In eventv1.call_init cs -> eventv1.built Build (snd (run_calls cs p)))
  /\ (~ In eventv1.call_init cs -> eventv1.unbuilt (snd (run_calls cs p))).
Proof.
  revert p. induction cs as [|c cs IH]; intros p Hp.
  - simpl. split; [contradiction | intros _; exact Hp].
  - rewrite calls_cons.
    destruct (rawDescGZIP_frame p) as (HF & Hraw & Hgo & Hdep & Hbuilds).
    assert (Hkeep : eventv1.unbuilt
              (snd (eventv1.file_event_v1_event_proto_rawDescGZIP CompressGZIP p)))
      by (unfold eventv1.unbuilt; rewrite HF, Hraw, Hgo, Hdep, Hbuilds; exact Hp).
    destruct c; cbn [fst snd].
    + split; [intros _ | intros Hnot; destruct Hnot; left; reflexivity].
      apply built_stays.
      unfold eventv1.file_event_v1_event_proto_init.
      destruct Hp as (HFp & Hrawp & Hgop & Hdepp & Hbuildsp).
      rewrite HFp. unfold eventv1.built. simpl.
      rewrite Hrawp, Hgop, Hdepp, Hbuildsp. repeat split; reflexivity.
    + destruct (IH _ Hkeep) as [Hin Hout].
      split; [intros [Heq | H]; [discriminate | exact (Hin H)]
            | intros Hnot; apply Hout; intros H; apply Hnot; right; exact H].
    + destruct (IH _ Hkeep) as [Hin Hout].
      split; [intros [Heq | H]; [discriminate | exact (Hin H)]
            | intros Hnot; apply Hout; intros H; apply Hnot; right; exact H].
    + destruct (IH _ Hkeep) as [Hin Hout].
      split; [intros [Heq | H]; [discriminate | exact (Hin H)]
            | intros Hnot; apply Hout; intros H; apply Hnot; right; exact H].
Qed.

(** Whatever calls a program makes on the package, [Build] runs at most
    once, on the first [init], and is given the descriptor as the source
    lists it, with one enum and one message; later [init]s return at
    once, so that [Build] never sees the variables the first one set to
    nil. Before any [init] nothing is built and the variables are
    intact. *)
Theorem init_builds_once (cs : list eventv1.call) :
  let p := snd (run_calls cs (eventv1.initialPackage FileDescriptor)) in
  (In eventv1.call_init cs ->
   eventv1.File_event_v1_event_proto p = Some (Build eventv1.firstBuilder)
   /\ eventv1.builds p = [eventv1.firstBuilder]
   /\ eventv1.rawDesc p = None)
  /\ (~ In eventv1.call_init cs ->
      eventv1.File_event_v1_event_proto p = None
      /\ eventv1.builds p = []
      /\ eventv1.rawDesc p = Some eventv1.file_event_v1_event_proto_rawDesc).
Proof.
  destruct (unbuilt_until_init cs (eventv1.initialPackage FileDescriptor))
    as [Hin Hout]; [repeat split|].
  split.
  - intros H. destruct (Hin H) as (HF & Hraw & _ & _ & Hb). auto.
  - intros H. destruct (Hout H) as (HF & Hraw & _ & _ & Hb). auto.
Qed.

End EventSchema.

(** ** More on the blob-digest resolver *)

Section ResolverMore.

Variable reference_WithName : string -> result Named.
Variable json_Unmarshal : list byte -> result Manifest.

Local Abbreviation ociBlobDigest :=
  (ociBlobDigestBuiltin reference_WithName json_Unmarshal).

Arguments LastIndexByte : simpl never.
Arguments slice_to : simpl never.
Arguments slice_from : simpl never.

Ltac run_resolver :=
  unfold ociBlobDigestBuiltin, bind, gets, deferred, orFail, calling, modify,
    ret, fail, bctx_Cancel; simpl.

Lemma scanLayers_string (mediaType : string) (layers : list Descriptor) :
  exists s, scanLayers mediaType layers = StringTerm s.
Proof.
  induction layers as [|layer rest IH]; simpl; [eauto|].
  destruct (negb (String.eqb (MediaType layer) mediaType)); eauto.
Qed.

(** Whatever its arguments and whatever the registry answers, the
    resolver consults the registry in one order: the calls of a run are a
    beginning of [Repository; Tags.Get; Manifests; ManifestService.Get;
    Payload]. It never fetches a manifest before the tag lookup, and
    makes at most five calls. *)
Theorem resolver_call_order (Location : string) (a b : Term) (w : World) :
  exists cs,
    registryTrace (snd (ociBlobDigest Location a b w)) = registryTrace w ++ cs
    /\ callOrder cs = true.
Proof.
  run_resolver.
  repeat split_match; rewrite <- ?app_assoc; simpl;
    first [ exists []; rewrite app_nil_r; split; reflexivity
          | eexists; split; reflexivity ].
Qed.

(** A successful result of the resolver is a string term, as its
    declared result type says. *)
Theorem resolver_returns_string (Location : string) (a b : Term) (w : World)
    (t : Term) :
  fst (ociBlobDigest Location a b w) = Ok t ->
  exists s, t = StringTerm s.
Proof.
  run_resolver.
  repeat split_match; intros H; try discriminate; injection H as <-;
    eauto using scanLayers_string.
Qed.

(** The arguments are checked before the reference is parsed and before
    the registry is consulted, the reference first: a first argument that
    is not a string fails with "oci reference is not a string" whatever
    the second is, and a second that is not a string fails with
    "oci layer mediatype is not a string" whatever the reference is. *)
Theorem resolver_checks_argument_types
    (Location : string) (a b : Term) (w : World) (fc : funcContext) :
  ctxValue w = Some fc ->
  ((forall s, Term_Value a <> ast_String s) ->
   fst (ociBlobDigest Location a b w) = Err (Errorf "oci reference is not a string")
   /\ registryTrace (snd (ociBlobDigest Location a b w)) = registryTrace w)
  /\ (forall ref,
        Term_Value a = ast_String ref ->
        (forall s, Term_Value b <> ast_String s) ->
        fst (ociBlobDigest Location a b w)
        = Err (Errorf "oci layer mediatype is not a string")
        /\ registryTrace (snd (ociBlobDigest Location a b w)) = registryTrace w).
Proof.
  intros Hctx. split.
  - intros Ha. run_resolver. rewrite Hctx. simpl.
    destruct (Term_Value a) as [| | |s| |]; simpl; auto.
    destruct (Ha s eq_refl).
  - intros ref Ha Hb. run_resolver. rewrite Hctx. simpl. rewrite Ha.
    destruct (Term_Value b) as [| | |s| |]; simpl; auto.
    destruct (Hb s eq_refl).
Qed.

(** What a success means: the arguments were strings, the reference
    split at its last colon into a name that [reference.WithName]
    accepted and whose repository opened, and then either the tag lookup
    failed with an [ErrTagUnknown] and the result is the empty string,
    or every later step succeeded and the result is the scan of the
    decoded manifest. An [ErrTagUnknown] from any step but the tag lookup
    is a failure like any other. *)
Theorem resolver_success_inversion
    (Location : string) (a b : Term) (w : World) (fc : funcContext) (t : Term) :
  ctxValue w = Some fc ->
  fst (ociBlobDigest Location a b w) = Ok t ->
  exists name tag mediaType namedRef repository,
    Term_Value a = ast_String (name +:+ String colon tag)
    /\ Term_Value b = ast_String mediaType
    /\ countByte colon tag = 0
    /\ reference_WithName name = Ok namedRef
    /\ Namespace_Repository (registry fc) namedRef = Ok repository
    /\ ((exists err,
           TagService_Get (Tags repository) tag = Err err
           /\ errors_As_ErrTagUnknown err = true
           /\ t = StringTerm "")
        \/ (exists dgst manifestService registryManifest payload manifest,
              TagService_Get (Tags repository) tag = Ok dgst
              /\ Manifests repository = Ok manifestService
              /\ ManifestService_Get manifestService dgst = Ok registryManifest
              /\ Payload registryManifest = Ok payload
              /\ json_Unmarshal (snd payload) = Ok manifest
              /\ t = scanLayers mediaType (Layers manifest))).
Proof.
  intros Hctx. run_resolver. rewrite Hctx. simpl.
  destruct (Term_Value a) as [| | |ref| |]; simpl; try discriminate.
  destruct (Term_Value b) as [| | |mediaType| |]; simpl; try discriminate.
  destruct (countByte colon ref) as [|n] eqn:Hcount.
  { rewrite (LastIndexByte_absent colon ref Hcount). simpl. discriminate. }
  destruct (split_last colon ref) as (name & tag & -> & Htag & _); [lia|].
  rewrite (LastIndexByte_last colon name tag Htag), of_nat_ltb_0,
    slice_to_name, slice_from_tag.
  destruct (reference_WithName name) as [namedRef|e0] eqn:Hname; simpl;
    [|discriminate].
  destruct (Namespace_Repository (registry fc) namedRef) as [repository|e1]
    eqn:Hrepo; simpl; [|discriminate].
  destruct (TagService_Get (Tags repository) tag) as [dgst|err] eqn:Hget; simpl.
  - destruct (Manifests repository) as [ms|e2] eqn:Hms; simpl; [|discriminate].
    destruct (ManifestService_Get ms dgst) as [rm|e3] eqn:Hmget; simpl;
      [|discriminate].
    destruct (Payload rm) as [payload|e4] eqn:Hpayload; simpl; [|discriminate].
    destruct (json_Unmarshal (snd payload)) as [manifest|e5] eqn:Hjson; simpl;
      [|discriminate].
    intros [= <-]. exists name, tag, mediaType, namedRef, repository.
    repeat (split; [reflexivity || assumption|]).
    right. exists dgst, ms, rm, payload, manifest. repeat split; assumption.
  - destruct (errors_As_ErrTagUnknown err) eqn:Has; simpl; [|discriminate].
    intros [= <-]. exists name, tag, mediaType, namedRef, repository.
    repeat (split; [reflexivity || assumption|]).
    left. exists err. repeat split; assumption.
Qed.

End ResolverMore.

(** ** More on the request-body accessor *)

Section AccessorMore.

Variable ast_ValueFromReader : list byte -> result Value * nat.

Local Abbreviation requestBodyFn := (requestBodyBuiltin ast_ValueFromReader).

(** The accessor never consults the registry. *)
Theorem accessor_leaves_registry_alone (Location : string) (w : World) :
  registryTrace (snd (requestBodyFn Location w)) = registryTrace w.
Proof.
  destruct (hasBody (requestBody w)) eqn:Hhas.
  - unfold requestBody in Hhas.
    destruct (ctxValue w) as [fc|] eqn:Hctx; [|discriminate].
    destruct (Body (req fc)) as [rc|] eqn:Hbody; [|discriminate].
    run_accessor. repeat (rewrite ?Hctx, ?Hbody, ?Hhas; simpl).
    destruct (bufferPool w) as [|b pool] eqn:Hpool; simpl;
      repeat (rewrite ?Hctx, ?Hbody; simpl);
      match goal with
      | |- context [ReadCloser_ReadAtLeast ?c ?h rc] =>
          destruct (ReadCloser_ReadAtLeast c h rc) as [[data err] rc'] eqn:Hread
      end; simpl;
      (destruct err as [e|]; simpl; [reflexivity|]);
      match goal with
      | |- context [ast_ValueFromReader ?bs] =>
          destruct (ast_ValueFromReader bs) as [[v|e] taken]; simpl; reflexivity
      end.
  - unfold requestBody in Hhas. run_accessor.
    destruct (ctxValue w) as [fc|] eqn:Hctx; simpl; rewrite ?Hctx, ?Hhas; simpl;
      rewrite ?Hctx; reflexivity.
Qed.

(** Of every buffer but the one the next [Get] hands out, the accessor
    leaves the content as it is. *)
Theorem accessor_writes_one_buffer (Location : string) (w : World) (b : bufid) :
  b <> fst (poolNext w) ->
  heap (snd (requestBodyFn Location w)) !! b = heap w !! b.
Proof.
  intros Hb. destruct (hasBody (requestBody w)) eqn:Hhas.
  - unfold requestBody in Hhas.
    destruct (ctxValue w) as [fc|] eqn:Hctx; [|discriminate].
    destruct (Body (req fc)) as [rc|] eqn:Hbody; [|discriminate].
    destruct (accessor_with_body ast_ValueFromReader Location w fc rc Hctx Hbody Hhas)
      as (_ & Hheap & _).
    rewrite Hheap. unfold heap_write.
    rewrite lookup_insert_ne by (intros Heq; apply Hb; symmetry; exact Heq).
    revert Hb. unfold poolNext.
    destruct (bufferPool w); simpl; intros Hb; [|reflexivity].
    apply lookup_insert_ne. intros Heq; apply Hb; symmetry; exact Heq.
  - destruct (accessor_without_body ast_ValueFromReader Location w Hhas)
      as (Hheap & _). rewrite Hheap. reflexivity.
Qed.

(** What a success on a transport stream means. The bytes staged are
    those of one read, between 1 and 8192 of them; the value returned is
    the decoder's reading of exactly these bytes; and the request then
    carries a replayable body over them, at offset 0 however far the
    decoder read. *)
Theorem accessor_parses_first_read
    (Location : string) (w : World) (fc : funcContext) (s : stream) (t : Term) :
  ctxValue w = Some fc ->
  Body (req fc) = Some (transportBody s) ->
  fst (requestBodyFn Location w) = Ok t ->
  let data := fst (fst (stream_ReadAtLeast bufferSize s)) in
  0 < length data <= bufferSize
  /\ (exists v, fst (ast_ValueFromReader data) = Ok v /\ t = NewTerm v)
  /\ bodyContent (snd (requestBodyFn Location w)) = data
  /\ requestBody (snd (requestBodyFn Location w))
     = Some (replayBody
               (mkBufPoolCloser (mkReader (fst (poolNext w)) (length data) 0)
                  (fst (poolNext w)))).
Proof.
  intros Hctx Hbody Hok.
  destruct (accessor_with_body ast_ValueFromReader Location w fc (transportBody s)
              Hctx Hbody eq_refl) as (_ & Hheap & Hrun).
  simpl in Hheap, Hrun.
  destruct (stream_ReadAtLeast_outcome bufferSize s bufferSize_positive)
    as [[_ Herr] | (Hdata & Herr & Hlen)];
    destruct (stream_ReadAtLeast bufferSize s) as [[data err] s'];
    simpl in *.
  - destruct err; [|congruence]. destruct Hrun as [Hrun _]. congruence.
  - subst err.
    destruct (fst (ast_ValueFromReader data)) as [v|e] eqn:Hparse.
    + destruct Hrun as [Hrun Hreplay].
      split; [split; [destruct data; [congruence | simpl; lia] | exact Hlen]|].
      split; [exists v; split; [reflexivity | congruence]|].
      split; [|exact Hreplay].
      exact (bodyContent_of_replay _ _ _ _ Hreplay Hheap).
    + destruct Hrun as [Hrun _]. congruence.
Qed.

(** A first read that offers more than the destination holds fills the
    destination and leaves the rest in the stream. *)
Lemma stream_ReadAtLeast_long (c : nat) (d : list byte) (e : option error)
    (rest : stream) :
  c < length d ->
  stream_ReadAtLeast c (mkChunk d e :: rest)
  = (take c d, None, mkChunk (drop c d) e :: rest).
Proof.
  intros Hlong. simpl. destruct d as [|x d]; [simpl in Hlong; lia|].
  assert (Hleb : (length (x :: d) <=? c)%nat = false)
    by (apply Nat.leb_gt; exact Hlong).
  rewrite Hleb. reflexivity.
Qed.

(** A success on a transport stream, in terms of what the one read
    delivered. *)
Lemma accessor_stages (Location : string) (w : World) (fc : funcContext)
    (s s' : stream) (data : list byte) (t : Term) :
  ctxValue w = Some fc ->
  Body (req fc) = Some (transportBody s) ->
  stream_ReadAtLeast bufferSize s = (data, None, s') ->
  fst (requestBodyFn Location w) = Ok t ->
  bodyContent (snd (requestBodyFn Location w)) = data.
Proof.
  intros Hctx Hbody Hread Hok.
  destruct (accessor_with_body ast_ValueFromReader Location w fc (transportBody s)
              Hctx Hbody eq_refl) as (_ & Hheap & Hrun).
  cbn [ReadCloser_ReadAtLeast] in Hheap, Hrun.
  rewrite Hread in Hheap, Hrun. cbn [fst snd] in Hheap, Hrun.
  destruct (fst (ast_ValueFromReader data)) as [v|err].
  - destruct Hrun as [_ Hreplay].
    exact (bodyContent_of_replay _ _ _ _ Hreplay Hheap).
  - destruct Hrun as [Hrun _]. congruence.
Qed.

(** A body whose first read offers more than 8192 bytes is cut: after a
    success the request's body holds the first 8192 bytes and nothing
    more. *)
Theorem accessor_truncates_long_body
    (Location : string) (w : World) (fc : funcContext)
    (d : list byte) (e : option error) (rest : stream) (t : Term) :
  ctxValue w = Some fc ->
  Body (req fc) = Some (transportBody (mkChunk d e :: rest)) ->
  bufferSize < length d ->
  fst (requestBodyFn Location w) = Ok t ->
  bodyContent (snd (requestBodyFn Location w)) = take bufferSize d
  /\ length (bodyContent (snd (requestBodyFn Location w))) = bufferSize.
Proof.
  intros Hctx Hbody Hlong Hok.
  pose proof (accessor_stages Location w fc _ _ _ t Hctx Hbody
                (stream_ReadAtLeast_long bufferSize d e rest Hlong) Hok)
    as Hcontent.
  rewrite Hcontent. split; [reflexivity|]. rewrite length_take. lia.
Qed.

(** When the accessor fails on a transport stream that reports no error
    before its end, the bytes it staged are gone for later consumers:
    what the stream held is the staged bytes followed by what the
    request's body still yields. Nothing is lost only when nothing was
    staged. *)
Theorem accessor_failure_loses_staged_bytes
    (Location : string) (w : World) (fc : funcContext) (s : stream)
    (errFn : error) :
  ctxValue w = Some fc ->
  Body (req fc) = Some (transportBody s) ->
  Forall (fun ch => chunk_err ch = None) s ->
  fst (requestBodyFn Location w) = Err errFn ->
  bodyContent w
  = fst (fst (stream_ReadAtLeast bufferSize s))
    ++ bodyContent (snd (requestBodyFn Location w)).
Proof.
  intros Hctx Hbody Hclean Hfail.
  destruct (accessor_with_body ast_ValueFromReader Location w fc (transportBody s)
              Hctx Hbody eq_refl) as (_ & _ & Hrun).
  pose proof (stream_ReadAtLeast_consumes bufferSize s Hclean) as Hsplit.
  assert (Hbefore : bodyContent w = fst (stream_ReadAll s)).
  { unfold bodyContent, requestBody. rewrite Hctx, Hbody. reflexivity. }
  assert (Hafter : requestBody (snd (requestBodyFn Location w))
                   = Some (transportBody (snd (stream_ReadAtLeast bufferSize s)))).
  { simpl in Hrun.
    destruct (stream_ReadAtLeast bufferSize s) as [[data err] s']. simpl in *.
    destruct err; [apply Hrun|].
    destruct (fst (ast_ValueFromReader data)); [|apply Hrun].
    destruct Hrun as [Hrun _]. congruence. }
  rewrite Hbefore, Hsplit. unfold bodyContent at 1. rewrite Hafter. reflexivity.
Qed.

(** A successful call followed by one [Close] of the body it installed:
    the buffer put back is the very buffer the call took, whichever
    buffer the pool handed out. [Close] detaches nothing: the request
    still carries the same body, and the body still reads the same bytes
    out of the buffer that is now the pool's to hand out again. *)
Theorem accessor_then_Close_returns_own_buffer
    (Location : string) (w : World) (fc : funcContext) (rc : ReadCloser)
    (t : Term) :
  ctxValue w = Some fc ->
  Body (req fc) = Some rc ->
  hasBody (Some rc) = true ->
  fst (requestBodyFn Location w) = Ok t ->
  exists bpc,
    requestBody (snd (requestBodyFn Location w)) = Some (replayBody bpc)
    /\ poolTrace (snd (Close bpc (snd (requestBodyFn Location w))))
       = poolTrace w ++ [PoolGet (buf bpc); PoolPut (buf bpc)]
    /\ requestBody (snd (Close bpc (snd (requestBodyFn Location w))))
       = Some (replayBody bpc)
    /\ bodyContent (snd (Close bpc (snd (requestBodyFn Location w))))
       = bodyContent (snd (requestBodyFn Location w)).
Proof.
  intros Hctx Hbody Hhas Hok.
  destruct (accessor_with_body ast_ValueFromReader Location w fc rc Hctx Hbody Hhas)
    as (Htrace & _ & Hrun).
  assert (Hreplay : exists n,
             requestBody (snd (requestBodyFn Location w))
             = Some (replayBody
                       (mkBufPoolCloser (mkReader (fst (poolNext w)) n 0)
                          (fst (poolNext w))))).
  { destruct (snd (fst (ReadCloser_ReadAtLeast bufferSize (snd (poolNext w)) rc))).
    - destruct Hrun as [Hrun _]. congruence.
    - destruct (fst (ast_ValueFromReader _)); [eexists; apply Hrun|].
      destruct Hrun as [Hrun _]. congruence. }
  destruct Hreplay as [n Hreplay].
  eexists. split; [exact Hreplay|].
  unfold Close, bufferPool_Put, modify. cbn [snd buf].
  split; [|split].
  - cbn [poolTrace set_poolTrace set_bufferPool]. rewrite Htrace, <- app_assoc.
    reflexivity.
  - exact Hreplay.
  - reflexivity.
Qed.

(** A second call while the request still carries the replayable body of
    the first, not closed: the call acquires another buffer for the new
    replayable body and drops the old one without putting its buffer
    back. After it the first buffer is neither in the pool nor held by
    the request. *)
Theorem second_call_abandons_first_buffer
    (Location : string) (w : World) (fc : funcContext) (bpc : bufPoolCloser)
    (t : Term) :
  wellFormed w ->
  ctxValue w = Some fc ->
  Body (req fc) = Some (replayBody bpc) ->
  buf bpc ∉ bufferPool w ->
  fst (requestBodyFn Location w) = Ok t ->
  exists bpc',
    requestBody (snd (requestBodyFn Location w)) = Some (replayBody bpc')
    /\ buf bpc' <> buf bpc
    /\ (buf bpc ∉ bufferPool (snd (requestBodyFn Location w)))
    /\ poolTrace (snd (requestBodyFn Location w))
       = poolTrace w ++ [PoolGet (buf bpc')].
Proof.
  intros Hwf Hctx Hbody Hout Hok.
  destruct (accessor_with_body ast_ValueFromReader Location w fc (replayBody bpc)
              Hctx Hbody eq_refl) as (Htrace & _ & Hrun).
  destruct (accessor_allocation ast_ValueFromReader Location w fc (replayBody bpc)
              Hctx Hbody eq_refl) as [Hpool _].
  destruct (wf_body w Hwf bpc) as [Halloc _].
  { unfold requestBody. rewrite Hctx. exact Hbody. }
  assert (Hother : fst (poolNext w) <> buf bpc).
  { unfold poolNext. destruct (bufferPool w) as [|b0 pool] eqn:Hp; simpl.
    - pose proof (wf_fresh w Hwf _ Halloc). lia.
    - intros ->. apply Hout. left. }
  assert (Hreplay : exists n,
             requestBody (snd (requestBodyFn Location w))
             = Some (replayBody
                       (mkBufPoolCloser (mkReader (fst (poolNext w)) n 0)
                          (fst (poolNext w))))).
  { destruct (snd (fst (ReadCloser_ReadAtLeast bufferSize (snd (poolNext w))
                          (replayBody bpc)))).
    - destruct Hrun as [Hrun _]. congruence.
    - destruct (fst (ast_ValueFromReader _)); [eexists; apply Hrun|].
      destruct Hrun as [Hrun _]. congruence. }
  destruct Hreplay as [n Hreplay].
  eexists. split; [exact Hreplay|]. simpl.
  split; [exact Hother|]. split; [|exact Htrace].
  rewrite Hpool. intros Hin. apply Hout.
  destruct (bufferPool w); [inversion Hin | right; exact Hin].
Qed.

End AccessorMore.

(** ** More on the error protocol *)

Section ProtocolMore.

Variable reference_WithName : string -> result Named.
Variable json_Unmarshal : list byte -> result Manifest.
Variable ast_ValueFromReader : list byte -> result Value * nat.

Local Abbreviation ociBlobDigest :=
  (ociBlobDigestBuiltin reference_WithName json_Unmarshal).
Local Abbreviation requestBodyFn := (requestBodyBuiltin ast_ValueFromReader).

(** Neither function ever undoes a cancellation, and a call that
    succeeds leaves the error slot and the token exactly as it found
    them: an error recorded by an earlier call stays recorded. *)
Theorem success_keeps_slot_and_token
    (Location : string) (a b : Term) (w : World) :
  (Cancelled w = true ->
   Cancelled (snd (ociBlobDigest Location a b w)) = true
   /\ Cancelled (snd (requestBodyFn Location w)) = true)
  /\ (forall t, fst (ociBlobDigest Location a b w) = Ok t ->
      errorSlot (snd (ociBlobDigest Location a b w)) = errorSlot w
      /\ Cancelled (snd (ociBlobDigest Location a b w)) = Cancelled w)
  /\ (forall t, fst (requestBodyFn Location w) = Ok t ->
      errorSlot (snd (requestBodyFn Location w)) = errorSlot w
      /\ Cancelled (snd (requestBodyFn Location w)) = Cancelled w).
Proof.
  destruct (ctxValue w) as [fc|] eqn:Hctx.
  - pose proof (ociBlobDigest_outcome reference_WithName json_Unmarshal
                  Location a b w fc Hctx) as Hoci.
    pose proof (requestBody_outcome ast_ValueFromReader Location w fc Hctx) as Hrb.
    split; [|split].
    + intros Hc.
      destruct (fst (ociBlobDigest Location a b w));
        destruct (fst (requestBodyFn Location w));
        destruct Hoci as [_ Hoci]; destruct Hrb as [_ Hrb]; split; congruence.
    + intros t Hok. rewrite Hok in Hoci. exact Hoci.
    + intros t Hok. rewrite Hok in Hrb. exact Hrb.
  - destruct (missing_context reference_WithName json_Unmarshal
                ast_ValueFromReader Location a b w Hctx)
      as [(Hoci & Hcoci & _) (Hrb & Hcrb & _)].
    split; [auto|]. split; intros t Hok; congruence.
Qed.

End ProtocolMore.

(** ** These properties on the sample collaborators *)

(** The sample world that carries a replayable body is well formed. *)
Lemma replayed_wellFormed : wellFormed Sample2.replayed.
Proof.
  constructor; simpl.
  - intros b bs Hb. apply lookup_singleton_Some in Hb as [_ <-].
    unfold Sample2.stagedBuffer. rewrite length_app, length_replicate.
    simpl. unfold bufferSize. lia.
  - intros b [x Hb]. apply lookup_singleton_Some in Hb as [<- _]. lia.
  - intros b Hin. inversion Hin.
  - intros bpc [= <-]. simpl. split; [|reflexivity].
    rewrite lookup_singleton_eq. eauto.
Qed.

Lemma resolver_returns_string_witness :
  exists s,
    StringTerm "bb" = StringTerm s.
Proof.
  exact (resolver_returns_string Sample.WithName Sample.Unmarshal
           "policy.rego:3" (StringTerm "repo:latest") (StringTerm "application/rpm")
           (Sample.world None) (StringTerm "bb") eq_refl).
Defined.

Lemma resolver_checks_argument_types_witness :
  fst (Sample.oci_blob_digest "policy.rego:3" (NewTerm Null)
         (NewTerm (Boolean true)) (Sample.world None))
  = Err (Errorf "oci reference is not a string")
  /\ registryTrace
       (snd (Sample.oci_blob_digest "policy.rego:3" (NewTerm Null)
               (NewTerm (Boolean true)) (Sample.world None)))
     = [].
Proof.
  refine (proj1 (resolver_checks_argument_types Sample.WithName Sample.Unmarshal
                   "policy.rego:3" (NewTerm Null) (NewTerm (Boolean true))
                   (Sample.world None)
                   (mkFuncContext (mkRequest None) Sample.registry None)
                   eq_refl) _).
  intros s. discriminate.
Defined.

Lemma resolver_success_inversion_witness :
  exists name tag mediaType namedRef repository,
    ast_String "repo:nope" = ast_String (name +:+ String colon tag)
    /\ ast_String "application/rpm" = ast_String mediaType
    /\ countByte colon tag = 0
    /\ Sample.WithName name = Ok namedRef
    /\ Namespace_Repository Sample.registry namedRef = Ok repository
    /\ ((exists err,
           TagService_Get (Tags repository) tag = Err err
           /\ errors_As_ErrTagUnknown err = true
           /\ StringTerm "" = StringTerm "")
        \/ (exists dgst manifestService registryManifest payload manifest,
              TagService_Get (Tags repository) tag = Ok dgst
              /\ Manifests repository = Ok manifestService
              /\ ManifestService_Get manifestService dgst = Ok registryManifest
              /\ Payload registryManifest = Ok payload
              /\ Sample.Unmarshal (snd payload) = Ok manifest
              /\ StringTerm "" = scanLayers mediaType (Layers manifest))).
Proof.
  exact (resolver_success_inversion Sample.WithName Sample.Unmarshal
           "policy.rego:3" (StringTerm "repo:nope") (StringTerm "application/rpm")
           (Sample.world None)
           (mkFuncContext (mkRequest None) Sample.registry None)
           (StringTerm "") eq_refl eq_refl).
Defined.

Lemma accessor_writes_one_buffer_witness :
  heap (snd (Sample.request_body "policy.rego:3" Sample2.replayed)) !! 0
  = Some Sample2.stagedBuffer.
Proof.
  refine (accessor_writes_one_buffer Sample.ValueFromReader "policy.rego:3"
            Sample2.replayed 0 _).
  vm_compute. discriminate.
Defined.

Lemma accessor_parses_first_read_witness :
  bodyContent
    (snd (Sample.request_body "policy.rego:3"
            (Sample.world
               (Some (transportBody [mkChunk (Sample.bytes "true") None;
                                     mkChunk (Sample.bytes "!!") None])))))
  = Sample.bytes "true".
Proof.
  exact (proj1 (proj2 (proj2
           (accessor_parses_first_read Sample.ValueFromReader "policy.rego:3"
              (Sample.world
                 (Some (transportBody [mkChunk (Sample.bytes "true") None;
                                       mkChunk (Sample.bytes "!!") None])))
              (mkFuncContext
                 (mkRequest
                    (Some (transportBody [mkChunk (Sample.bytes "true") None;
                                          mkChunk (Sample.bytes "!!") None])))
                 Sample.registry None)
              [mkChunk (Sample.bytes "true") None; mkChunk (Sample.bytes "!!") None]
              (NewTerm (Boolean true))
              eq_refl eq_refl ltac:(vm_compute; reflexivity))))).
Defined.

Lemma accessor_truncates_long_body_witness :
  length
    (bodyContent
       (snd (requestBodyBuiltin Sample2.lenient "policy.rego:3"
               (Sample.world
                  (Some (transportBody [mkChunk Sample2.longBody None]))))))
  = bufferSize.
Proof.
  refine (proj2
            (accessor_truncates_long_body Sample2.lenient "policy.rego:3"
               (Sample.world (Some (transportBody [mkChunk Sample2.longBody None])))
               (mkFuncContext
                  (mkRequest (Some (transportBody [mkChunk Sample2.longBody None])))
                  Sample.registry None)
               Sample2.longBody None [] (NewTerm Null)
               eq_refl eq_refl _ _)).
  - unfold Sample2.longBody. rewrite length_replicate. lia.
  - vm_compute. reflexivity.
Defined.

Lemma accessor_failure_loses_staged_bytes_witness :
  Sample.bytes "true!"
  = Sample.bytes "tr"
    ++ bodyContent
         (snd (Sample.request_body "policy.rego:3"
                 (Sample.world
                    (Some (transportBody [mkChunk (Sample.bytes "tr") None;
                                          mkChunk (Sample.bytes "ue!") None]))))).
Proof.
  refine (accessor_failure_loses_staged_bytes Sample.ValueFromReader "policy.rego:3"
            (Sample.world
               (Some (transportBody [mkChunk (Sample.bytes "tr") None;
                                     mkChunk (Sample.bytes "ue!") None])))
            (mkFuncContext
               (mkRequest
                  (Some (transportBody [mkChunk (Sample.bytes "tr") None;
                                        mkChunk (Sample.bytes "ue!") None])))
               Sample.registry None)
            [mkChunk (Sample.bytes "tr") None; mkChunk (Sample.bytes "ue!") None]
            (errorString "invalid character")
            eq_refl eq_refl _ _).
  - repeat constructor.
  - vm_compute. reflexivity.
Defined.

Lemma accessor_then_Close_returns_own_buffer_witness :
  exists bpc,
    requestBody
      (snd (Sample.request_body "policy.rego:3"
              (Sample.world
                 (Some (transportBody [mkChunk (Sample.bytes "true") None])))))
    = Some (replayBody bpc)
    /\ poolTrace
         (snd (Close bpc
                 (snd (Sample.request_body "policy.rego:3"
                         (Sample.world
                            (Some (transportBody
                                     [mkChunk (Sample.bytes "true") None])))))))
       = [] ++ [PoolGet (buf bpc); PoolPut (buf bpc)]
    /\ bodyContent
         (snd (Close bpc
                 (snd (Sample.request_body "policy.rego:3"
                         (Sample.world
                            (Some (transportBody
                                     [mkChunk (Sample.bytes "true") None])))))))
       = bodyContent
           (snd (Sample.request_body "policy.rego:3"
                   (Sample.world
                      (Some (transportBody
                               [mkChunk (Sample.bytes "true") None]))))).
Proof.
  destruct (accessor_then_Close_returns_own_buffer Sample.ValueFromReader
              "policy.rego:3"
              (Sample.world
                 (Some (transportBody [mkChunk (Sample.bytes "true") None])))
              (mkFuncContext
                 (mkRequest
                    (Some (transportBody [mkChunk (Sample.bytes "true") None])))
                 Sample.registry None)
              (transportBody [mkChunk (Sample.bytes "true") None])
              (NewTerm (Boolean true))
              eq_refl eq_refl eq_refl ltac:(vm_compute; reflexivity))
    as (bpc & Hbody & Htrace & _ & Hcontent).
  exists bpc. split; [exact Hbody|]. split; [exact Htrace | exact Hcontent].
Defined.

Lemma second_call_abandons_first_buffer_witness :
  exists bpc',
    requestBody (snd (Sample.request_body "policy.rego:7" Sample2.replayed))
    = Some (replayBody bpc')
    /\ buf bpc' <> 0
    /\ (0 ∉ bufferPool (snd (Sample.request_body "policy.rego:7" Sample2.replayed)))
    /\ poolTrace (snd (Sample.request_body "policy.rego:7" Sample2.replayed))
       = [PoolGet 0] ++ [PoolGet (buf bpc')].
Proof.
  refine (second_call_abandons_first_buffer Sample.ValueFromReader "policy.rego:7"
            Sample2.replayed
            (mkFuncContext (mkRequest (Some (replayBody Sample2.replay)))
               Sample.registry None)
            Sample2.replay (NewTerm (Boolean true))
            replayed_wellFormed eq_refl eq_refl _ _).
  - intros Hin. inversion Hin.
  - vm_compute. reflexivity.
Defined.

Lemma accessor_wellFormed_witness :
  wellFormed (snd (Sample.request_body "policy.rego:7" Sample2.replayed)).
Proof.
  exact (accessor_wellFormed Sample.ValueFromReader "policy.rego:7"
           Sample2.replayed replayed_wellFormed).
Defined.

Lemma Close_wellFormed_witness :
  wellFormed (snd (Close_times 2 Sample2.replay Sample2.replayed)).
Proof.
  exact (Close_wellFormed 2 Sample2.replay Sample2.replayed
           replayed_wellFormed eq_refl).
Defined.

Lemma round_trip_on_replayed_body_witness :
  bodyContent (snd (Sample.request_body "policy.rego:7" Sample2.replayed))
  = bodyContent Sample2.replayed.
Proof.
  refine (round_trip_on_replayed_body Sample.ValueFromReader "policy.rego:7"
            Sample2.replayed
            (mkFuncContext (mkRequest (Some (replayBody Sample2.replay)))
               Sample.registry None)
            Sample2.replay (NewTerm (Boolean true))
            replayed_wellFormed eq_refl eq_refl _).
  vm_compute. reflexivity.
Defined.
